(** * VLESS wire codec and outbound dial path (sing-box, VPPL fork)

    A shallow embedding of [transport/vless/protocol.go] and
    [outbound/vless.go].  Byte buffers and Go strings are [list byte]; a
    length ([int], never negative and never near [2^63] for a slice in
    memory) is a [nat]; a [uint64] is a [Z] reduced modulo [2^64]; a
    nil-able byte slice is an [option (list byte)] ([None] is the nil
    slice, [Some []] the empty non-nil one).  Stream readers thread the
    unread suffix of the stream; the output buffer is sing's
    capacity-bounded [buf.Buffer]; the dial path threads the adapter value
    and a trace of the calls it makes to its collaborators. *)

From Stdlib Require Import Bool String ZArith List Lia.
From Stdlib.Strings Require Import Byte.
Import ListNotations.
Local Open Scope Z_scope.

Set Implicit Arguments.

(* ================================================================== *)
(** * Errors and results *)

(** Error values.  The wrappers mirror the [E.New("...: ", err)] calls of the
    source; [External n] is an error produced by a collaborator. *)
Inductive error : Type :=
| EOF
| ErrUnexpectedEOF
| ErrShortBuffer
| ErrVarintOverflow
| External (code : nat)
| CantReadVersion (cause : error)
| UnknownVersion (v : byte)
| CantReadUUID (cause : error)
| CantReadAddonsLen (cause : error)
| CantReadAddons (cause : error)
| CantParseAddons (cause : error)
| CantReadCommand (cause : error)
| CantSerializeAddress (cause : error)
| UnknownProtobufHeader (h : byte)
| CantReadVPPLDestination (n : Z) (cause : error)
| VPPLNoPublicKey
| VPPLNoTransport
| CreateClientTransport (cause : error)
| VPPLDestinationEmpty
| PacketaddrDomainUnsupported
| ErrUnknownNetwork (network : string).

(** A Go call either returns a value, returns an error, or panics. *)
Inductive result (A : Type) : Type :=
| Ok (a : A)
| Err (e : error)
| Panic.
Arguments Ok {A} a.
Arguments Err {A} e.
Arguments Panic {A}.

Definition rbind {A B} (m : result A) (k : A -> result B) : result B :=
  match m with
  | Ok a => k a
  | Err e => Err e
  | Panic => Panic
  end.

(** [common.Must]: a non-nil error becomes a panic. *)
Definition must {A} (m : result A) : result A :=
  match m with
  | Err _ => Panic
  | r => r
  end.

(** [E.New(prefix, err)] around a failing call. *)
Definition wrap {A} (w : error -> error) (m : result A) : result A :=
  match m with
  | Err e => Err (w e)
  | r => r
  end.

Declare Scope go_scope.
Delimit Scope go_scope with go.
Notation "x <- m ;; k" := (rbind m (fun x => k))
  (at level 61, m at next level, right associativity) : go_scope.
Notation "' pat <- m ;; k" := (rbind m (fun x => match x with pat => k end))
  (at level 61, pat pattern, m at next level, right associativity) : go_scope.
Local Open Scope go_scope.

(* ================================================================== *)
(** * Bytes and fixed-width integers *)

Definition byte_to_Z (b : byte) : Z := Z.of_N (Byte.to_N b).

(** Go's [byte(x)] conversion: the low eight bits. *)
Definition byte_of_Z (z : Z) : byte :=
  match Byte.of_N (Z.to_N (z mod 256)) with
  | Some b => b
  | None => x00
  end.

Definition uint64 (z : Z) : Z := z mod 2 ^ 64.
Definition uint16 (z : Z) : Z := z mod 2 ^ 16.

(** [int(x)] of a [uint64]: two's complement reinterpretation. *)
Definition int_of_uint64 (x : Z) : Z :=
  if x <? 2 ^ 63 then x else x - 2 ^ 64.

Definition len {A} (l : list A) : Z := Z.of_nat (length l).

(** [binary.BigEndian.PutUint16]. *)
Definition PutUint16 (v : Z) : list byte :=
  [byte_of_Z (Z.shiftr v 8); byte_of_Z v].

(* ================================================================== *)
(** * Variable-length integers *)

(** [rw.UVariantLen]. *)
Definition UVariantLen (x : Z) : nat :=
  if x <? 2 ^ 7 then 1
  else if x <? 2 ^ 14 then 2
  else if x <? 2 ^ 21 then 3
  else if x <? 2 ^ 28 then 4
  else if x <? 2 ^ 35 then 5
  else if x <? 2 ^ 42 then 6
  else if x <? 2 ^ 49 then 7
  else if x <? 2 ^ 56 then 8
  else if x <? 2 ^ 63 then 9
  else 10%nat.

(** [binary.PutUvarint]: the loop [for x >= 0x80 { buf[i] = byte(x) | 0x80;
    x >>= 7; i++ }; buf[i] = byte(x)].  A [uint64] leaves the loop after at
    most nine rounds, which is the fuel [PutUvarint] gives it. *)
Fixpoint PutUvarint_loop (fuel : nat) (x : Z) : list byte :=
  match fuel with
  | O => [byte_of_Z x]
  | S fuel' =>
      if 128 <=? x
      then byte_of_Z (Z.lor x 128) :: PutUvarint_loop fuel' (Z.shiftr x 7)
      else [byte_of_Z x]
  end.

Definition PutUvarint (x : Z) : list byte := PutUvarint_loop 9 x.

(** [binary.ReadUvarint] over the unread suffix [r] of a stream: [n] rounds
    remain, [i] is the loop counter, [x] the accumulator and [s] the shift. *)
Fixpoint ReadUvarint_loop (n : nat) (i x s : Z) (r : list byte)
  : result (Z * list byte) :=
  match n with
  | O => Err ErrVarintOverflow
  | S n' =>
      match r with
      | [] => Err (if 0 <? i then ErrUnexpectedEOF else EOF)
      | b :: r' =>
          let bz := byte_to_Z b in
          if bz <? 128 then
            if (i =? 9) && (1 <? bz) then Err ErrVarintOverflow
            else Ok (uint64 (Z.lor x (Z.shiftl bz s)), r')
          else
            ReadUvarint_loop n' (i + 1)
              (uint64 (Z.lor x (Z.shiftl (Z.land bz 127) s))) (s + 7) r'
      end
  end.

(** [rw.ReadUVariant]. *)
Definition ReadUVariant (r : list byte) : result (Z * list byte) :=
  ReadUvarint_loop 10 0 0 0 r.

(* ================================================================== *)
(** * Collaborators of the codec

    What [protocol.go] imports: Go's [encoding/binary] and [io], sing's
    [buf], [rw] and [metadata], sing-vmess's address serializer.  The
    functions are written out as those packages define them; the address
    serializer is an interface the theorems are stated over. *)

(** [M.Socksaddr]: a [netip.Addr] (here its byte slice: empty for the zero
    address, 4 bytes for IPv4, 16 for IPv6), a port and a domain name. *)
Record Socksaddr : Type := {
  Addr : list byte;
  Port : Z;
  Fqdn : list byte
}.

Definition zeroSocksaddr : Socksaddr :=
  {| Addr := []; Port := 0; Fqdn := [] |}.

(** The address codec the source reaches through [vmess.AddressSerializer]:
    the length it announces, the bytes it appends to a buffer (or the error
    it returns), and its reader. *)
Class AddressSerializer : Type := {
  AddrPortLen : Socksaddr -> nat;
  WriteAddrPort : Socksaddr -> result (list byte);
  ReadAddrPort : list byte -> result (Socksaddr * list byte)
}.

(** The serializer writes as many bytes as it announces. *)
Definition WritesAnnouncedLen `{AddressSerializer} (d : Socksaddr) : Prop :=
  forall bs, WriteAddrPort d = Ok bs -> length bs = AddrPortLen d.

(** The serializer reads back what it wrote, leaving the rest of the
    stream. *)
Definition ReadsBackWritten `{AddressSerializer} (d : Socksaddr) : Prop :=
  forall bs rest, WriteAddrPort d = Ok bs -> ReadAddrPort (bs ++ rest) = Ok (d, rest).

(** ** sing's [buf.Buffer]: a byte slice of fixed capacity with a write
    cursor. *)
Record Buffer : Type := {
  data : list byte;
  capacity : nat
}.

(** [buf.NewSize]. *)
Definition NewSize (size : nat) : Buffer := {| data := []; capacity := size |}.

Definition IsFull (b : Buffer) : bool := (capacity b <=? length (data b))%nat.

Definition FreeLen (b : Buffer) : nat := (capacity b - length (data b))%nat.

Definition put (p : list byte) (b : Buffer) : Buffer :=
  {| data := data b ++ p; capacity := capacity b |}.

(** [Buffer.WriteByte]. *)
Definition WriteByte (d : byte) (b : Buffer) : result Buffer :=
  if IsFull b then Err ErrShortBuffer else Ok (put [d] b).

(** [Buffer.Write] and [Buffer.WriteString]: nothing to do for an empty
    argument, an error on a full buffer, otherwise a copy of as much as
    fits. *)
Definition Write (p : list byte) (b : Buffer) : result Buffer :=
  match p with
  | [] => Ok b
  | _ => if IsFull b then Err ErrShortBuffer else Ok (put (firstn (FreeLen b) p) b)
  end.

(** [binary.PutUvarint(buffer.Extend(n), x)]: [Extend] panics past the
    capacity, [PutUvarint] panics when the slice is shorter than the
    encoding; bytes of the slice that [PutUvarint] does not reach are left
    as they were (zero here). *)
Definition ExtendPutUvarint (n : nat) (x : Z) (b : Buffer) : result Buffer :=
  if (FreeLen b <? n)%nat then Panic
  else if (n <? length (PutUvarint x))%nat then Panic
  else Ok (put (PutUvarint x ++ repeat x00 (n - length (PutUvarint x))) b).

(** [AddressSerializer.WriteAddrPort(buffer, destination)]. *)
Definition BufferWriteAddrPort `{AddressSerializer} (d : Socksaddr) (b : Buffer)
  : result Buffer :=
  bs <- WriteAddrPort d ;;
  if (FreeLen b <? length bs)%nat then Err ErrShortBuffer else Ok (put bs b).

(** ** Readers over the unread suffix of a stream *)

(** [rw.ReadByte], and [binary.Read] of one byte. *)
Definition ReadByte (r : list byte) : result (byte * list byte) :=
  match r with
  | [] => Err EOF
  | b :: r' => Ok (b, r')
  end.

(** [io.ReadFull] into a slice of [n] bytes. *)
Definition ReadFull (n : Z) (r : list byte) : result (list byte * list byte) :=
  if n <=? len r then Ok (firstn (Z.to_nat n) r, skipn (Z.to_nat n) r)
  else Err (match r with [] => EOF | _ => ErrUnexpectedEOF end).

(** [rw.ReadBytes]: [make([]byte, size)] panics on a negative size and
    gives a non-nil slice otherwise, also for size zero.  The runtime also
    refuses a size above its allocation limit (a platform constant, far
    above any stream held here); for such a size this definition reports
    the short read, and nothing below is stated about that range. *)
Definition ReadBytes (size : Z) (r : list byte) : result (list byte * list byte) :=
  if size <? 0 then Panic else ReadFull size r.

(** [rw.SkipN]: [io.CopyN] to the discard writer. *)
Definition SkipN (size : Z) (r : list byte) : result (list byte) :=
  if size <=? len r then Ok (skipn (Z.to_nat size) r) else Err EOF.

(* ================================================================== *)
(** * transport/vless/protocol.go *)

Definition Version : byte := x00.

(** Command bytes of sing-vmess. *)
Definition CommandTCP : byte := x01.
Definition CommandUDP : byte := x02.
Definition CommandMux : byte := x03.

Record Request : Type := {
  UUID : list byte;
  Command : byte;
  Destination : Socksaddr;
  Flow : list byte;
  VPPLDestAddr : option (list byte)
}.

Record Addons : Type := {
  AddonsFlow : list byte;
  VPPLDestination : option (list byte)
}.

Definition isEmpty {A} (l : list A) : bool :=
  match l with [] => true | _ => false end.

Definition isNil {A} (s : option A) : bool :=
  match s with None => true | Some _ => false end.

Definition readAddons (reader : list byte) : result Addons :=
  '(protoHeader, r1) <- ReadByte reader ;;
  if negb (Byte.eqb protoHeader x0a) then Err (UnknownProtobufHeader protoHeader)
  else
    match ReadUVariant r1 with
    | Err EOF => Ok {| AddonsFlow := []; VPPLDestination := None |}
    | Err e => Err e
    | Panic => Panic
    | Ok (flowLen, r2) =>
        '(flowBytes, r3) <- ReadBytes (int_of_uint64 flowLen) r2 ;;
        match ReadByte r3 with
        | Err EOF => Ok {| AddonsFlow := flowBytes; VPPLDestination := None |}
        | Err e => Err e
        | Panic => Panic
        | Ok (protoHeader2, r4) =>
            if negb (Byte.eqb protoHeader2 x12)
            then Err (UnknownProtobufHeader protoHeader2)
            else
              '(VPPLDestinationLen, r5) <- ReadUVariant r4 ;;
              '(VPPLDestinationBytes, _) <-
                 wrap (CantReadVPPLDestination (int_of_uint64 VPPLDestinationLen))
                      (ReadBytes (int_of_uint64 VPPLDestinationLen) r5) ;;
              Ok {| AddonsFlow := flowBytes;
                    VPPLDestination := Some VPPLDestinationBytes |}
        end
    end.

Definition ReadRequest `{AddressSerializer} (reader : list byte)
  : result (Request * list byte) :=
  '(version, r1) <- wrap CantReadVersion (ReadByte reader) ;;
  if negb (Byte.eqb version Version) then Err (UnknownVersion version)
  else
    '(uuid, r2) <- wrap CantReadUUID (ReadFull 16 r1) ;;
    '(addonsLen, r3) <- wrap CantReadAddonsLen (ReadUVariant r2) ;;
    '(flow, vppl, r4) <-
       (if 0 <? addonsLen then
          '(addonsBytes, r4) <-
             wrap CantReadAddons (ReadBytes (int_of_uint64 addonsLen) r3) ;;
          addons <- wrap CantParseAddons (readAddons addonsBytes) ;;
          Ok (AddonsFlow addons, VPPLDestination addons, r4)
        else Ok ([], None, r3)) ;;
    '(command, r5) <- wrap CantReadCommand (ReadByte r4) ;;
    '(destination, r6) <-
       (if negb (Byte.eqb command CommandMux)
        then wrap CantSerializeAddress (ReadAddrPort r5)
        else Ok (zeroSocksaddr, r5)) ;;
    Ok ({| UUID := uuid; Command := command; Destination := destination;
           Flow := flow; VPPLDestAddr := vppl |}, r6).

Definition RequestAddonLen (request : Request) : nat :=
  if negb (isEmpty (Flow request)) || negb (isNil (VPPLDestAddr request)) then
    (2
     + UVariantLen (uint64 (len (Flow request)))
     + (if negb (isEmpty (Flow request)) then length (Flow request) else 0)
     + match VPPLDestAddr request with
       | Some dest => UVariantLen (uint64 (len dest)) + length dest
       | None => UVariantLen 0
       end)%nat
  else 0%nat.

Definition RequestLen `{AddressSerializer} (request : Request) : nat :=
  let addonsLen := RequestAddonLen request in
  (1 + 16
   + UVariantLen (uint64 (Z.of_nat addonsLen))
   + addonsLen
   + 1
   + (if negb (Byte.eqb (Command request) CommandMux)
      then AddrPortLen (Destination request) else 0))%nat.

Definition EncodeRequest `{AddressSerializer} (request : Request) (buffer : Buffer)
  : result Buffer :=
  let addonsLen := RequestAddonLen request in
  b <- must (WriteByte Version buffer) ;;
  b <- must (Write (UUID request) b) ;;
  b <- ExtendPutUvarint (UVariantLen (uint64 (Z.of_nat addonsLen)))
                        (uint64 (Z.of_nat addonsLen)) b ;;
  b <- (if (0 <? addonsLen)%nat then
          b <- must (WriteByte x0a b) ;;
          b <- ExtendPutUvarint (UVariantLen (uint64 (len (Flow request))))
                                (uint64 (len (Flow request))) b ;;
          b <- (if (0 <? length (Flow request))%nat
                then must (Write (Flow request) b) else Ok b) ;;
          b <- must (WriteByte x12 b) ;;
          match VPPLDestAddr request with
          | Some dest =>
              b <- ExtendPutUvarint (UVariantLen (uint64 (len dest)))
                                    (uint64 (len dest)) b ;;
              must (Write dest b)
          | None => ExtendPutUvarint 1 0 b
          end
        else Ok b) ;;
  b <- must (WriteByte (Command request) b) ;;
  if negb (Byte.eqb (Command request) CommandMux)
  then BufferWriteAddrPort (Destination request) b
  else Ok b.

(** [WriteRequest]: the bytes handed to the writer in its one [Write]. *)
Definition WriteRequest `{AddressSerializer} (request : Request) (payload : list byte)
  : result (list byte) :=
  let buffer := NewSize (RequestLen request + length payload) in
  b <- EncodeRequest request buffer ;;
  b <- must (Write payload b) ;;
  Ok (data b).

Definition WritePacketRequest `{AddressSerializer} (request : Request)
  (payload : list byte) : result (list byte) :=
  let addonsLen := 0%nat in
  let requestLen :=
    (1 + 16 + 1 + 1 + AddrPortLen (Destination request)
     + (if (0 <? length payload)%nat then 2 + length payload else 0))%nat in
  let buffer := NewSize requestLen in
  b <- must (WriteByte Version buffer) ;;
  b <- must (Write (UUID request) b) ;;
  b <- must (WriteByte (byte_of_Z (Z.of_nat addonsLen)) b) ;;
  b <- (if (0 <? addonsLen)%nat then
          b <- must (WriteByte x0a b) ;;
          b <- ExtendPutUvarint (UVariantLen (uint64 (len (Flow request))))
                                (uint64 (len (Flow request))) b ;;
          must (Write (Flow request) b)
        else Ok b) ;;
  b <- must (WriteByte CommandUDP b) ;;
  b <- BufferWriteAddrPort (Destination request) b ;;
  b <- (if (0 <? length payload)%nat then
          b <- must (Write (PutUint16 (uint16 (len payload))) b) ;;
          must (Write payload b)
        else Ok b) ;;
  Ok (data b).

(** [ReadResponse]: the unread suffix left on the stream on success. *)
Definition ReadResponse (reader : list byte) : result (list byte) :=
  '(version, r1) <- ReadByte reader ;;
  if negb (Byte.eqb version Version) then Err (UnknownVersion version)
  else
    '(protobufLength, r2) <- ReadByte r1 ;;
    if 0 <? byte_to_Z protobufLength
    then SkipN (byte_to_Z protobufLength) r2
    else Ok r2.

(** ** The wire image of a request

    The layout of section 6 of the specification, as a pure function of the
    request and of the bytes the address codec contributes; the theorems
    relate [EncodeRequest] and [ReadRequest] to it. *)

Definition addonsWire (r : Request) : list byte :=
  if (0 <? RequestAddonLen r)%nat then
    [x0a] ++ PutUvarint (uint64 (len (Flow r))) ++ Flow r ++ [x12]
    ++ match VPPLDestAddr r with
       | Some dest => PutUvarint (uint64 (len dest)) ++ dest
       | None => [x00]
       end
  else [].

Definition requestWire (r : Request) (addr : list byte) : list byte :=
  [Version] ++ UUID r ++ PutUvarint (uint64 (Z.of_nat (RequestAddonLen r)))
  ++ addonsWire r ++ [Command r] ++ addr.

(** [binary.BigEndian.Uint16]. *)
Definition Uint16 (bs : list byte) : Z :=
  match bs with
  | [hi; lo] => Z.lor (Z.shiftl (byte_to_Z hi) 8) (byte_to_Z lo)
  | _ => 0
  end.

(** ** A serializer to run the codec on

    sing-vmess's [AddressSerializer] writes the port first, then a family
    byte (1 for IPv4, 3 for IPv6, 2 for a domain name) and the address; a
    domain name carries a one-byte length.  It is used below to evaluate
    the codec on concrete requests with numeric destinations only: the
    library parses a domain field that holds an IP literal back into an
    address, which this reader does not do. *)

Definition vmessAddrPortLen (d : Socksaddr) : nat :=
  if (length (Addr d) =? 4)%nat then 7
  else if (length (Addr d) =? 16)%nat then 19
  else if isEmpty (Fqdn d) then 1
  else (4 + length (Fqdn d))%nat.

Definition vmessWriteAddrPort (d : Socksaddr) : result (list byte) :=
  if (length (Addr d) =? 4)%nat then Ok (PutUint16 (Port d) ++ [x01] ++ Addr d)
  else if (length (Addr d) =? 16)%nat then Ok (PutUint16 (Port d) ++ [x03] ++ Addr d)
  else if isEmpty (Fqdn d) then Err (External 0)
  else if 255 <? len (Fqdn d) then Err (External 1)
  else Ok (PutUint16 (Port d) ++ [x02; byte_of_Z (len (Fqdn d))] ++ Fqdn d).

Definition vmessReadAddrPort (r : list byte) : result (Socksaddr * list byte) :=
  '(port, r1) <- ReadFull 2 r ;;
  '(family, r2) <- ReadByte r1 ;;
  if Byte.eqb family x01 then
    '(a, r3) <- ReadFull 4 r2 ;;
    Ok ({| Addr := a; Port := Uint16 port; Fqdn := [] |}, r3)
  else if Byte.eqb family x03 then
    '(a, r3) <- ReadFull 16 r2 ;;
    Ok ({| Addr := a; Port := Uint16 port; Fqdn := [] |}, r3)
  else if Byte.eqb family x02 then
    '(n, r3) <- ReadByte r2 ;;
    '(name, r4) <- ReadFull (byte_to_Z n) r3 ;;
    Ok ({| Addr := []; Port := Uint16 port; Fqdn := name |}, r4)
  else Err (External 2).

Definition vmessAddressSerializer : AddressSerializer :=
  {| AddrPortLen := vmessAddrPortLen;
     WriteAddrPort := vmessWriteAddrPort;
     ReadAddrPort := vmessReadAddrPort |}.

(** The request the decoder returns for the wire image of [r]: a nil
    obfuscated destination comes back as the empty non-nil slice, since the
    encoder writes a zero length for it and [rw.ReadBytes] allocates. *)
Definition decodedImage (r : Request) : Request :=
  {| UUID := UUID r;
     Command := Command r;
     Destination := Destination r;
     Flow := Flow r;
     VPPLDestAddr := Some (match VPPLDestAddr r with
                           | Some dest => dest
                           | None => []
                           end) |}.

(* ================================================================== *)
(** * option/vless.go: the outbound options *)

Module Options.

(** Option blocks that the adapter only hands on to its collaborators. *)
Inductive DialerOptions : Type := dialerOptions (id : nat).
Inductive OutboundTLSOptions : Type := tlsOptions (id : nat).
Inductive OutboundMultiplexOptions : Type := multiplexOptions (id : nat).
Inductive V2RayTransportOptions : Type := transportOptions (id : nat).

(** [common.PtrValueOrDefault] of a nil [*OutboundMultiplexOptions]. *)
Definition zeroMultiplexOptions : OutboundMultiplexOptions := multiplexOptions 0.

Record VPPLOptions : Type := {
  Enabled : bool;
  PathToKey : string;
  Key : string;
  Proxy : bool
}.

Record VPPLOutboundOptions : Type := {
  Base : VPPLOptions;
  Host : string;
  Port : Z
}.

Record VLESSServerOptions : Type := {
  Server : string;
  ServerPort : Z
}.

Record VLESSOutboundOptions : Type := {
  Dialer : DialerOptions;
  ServerOptions : VLESSServerOptions;
  UUID : string;
  Flow : string;
  Network : list string;
  TLS : option OutboundTLSOptions;
  Multiplex : option OutboundMultiplexOptions;
  Transport : option V2RayTransportOptions;
  PacketEncoding : option string;
  VPPL : VPPLOutboundOptions
}.

(** The options [o] with the VPPL key replaced by [key]. *)
Definition withKey (key : string) (o : VLESSOutboundOptions)
  : VLESSOutboundOptions :=
  {| Dialer := Dialer o; ServerOptions := ServerOptions o; UUID := UUID o;
     Flow := Flow o; Network := Network o; TLS := TLS o;
     Multiplex := Multiplex o; Transport := Transport o;
     PacketEncoding := PacketEncoding o;
     VPPL := {| Base := {| Enabled := Enabled (Base (VPPL o));
                           PathToKey := PathToKey (Base (VPPL o));
                           Key := key;
                           Proxy := Proxy (Base (VPPL o)) |};
                Host := Host (VPPL o); Port := Port (VPPL o) |} |}.

End Options.

(* ================================================================== *)
(** * outbound/vless.go *)

Module Outbound.

(** ** Handles of the collaborators' objects

    A parsed key that is not an RSA key is [OtherKey]: the type assertion
    of [NewVLESS] to an RSA public key panics on it. *)
Inductive Dialer : Type := dialerHandle (id : nat).
Inductive PublicKey : Type := rsaPublicKey (id : nat).
Inductive ParsedKey : Type := RSAKey (k : PublicKey) | OtherKey.
Inductive TLSConfig : Type := tlsConfigHandle (id : nat).
Inductive Transport : Type := transportHandle (id : nat).
Inductive Client : Type := clientHandle (id : nat).
Inductive MuxClient : Type := muxHandle (id : nat).
Inductive Conn : Type := connHandle (id : nat).

(** What a dial returns: a connection object made by a collaborator, or
    the wrappers the adapter puts around one. *)
Inductive NetConn : Type :=
| Handle (id : nat)
| PacketAddrConn (inner : NetConn) (destination : Socksaddr)
| BindPacketConn (inner : NetConn) (destination : Socksaddr).

(** Modelled from the spec: [adapter.InboundContext], declared outside the
    sources at hand; "the inbound connection context" that may "already
    carry a raw destination blob".  Only that field is read here. *)
Record InboundContext : Type := {
  VPPLdestination : option (list byte)
}.

(** Modelled from the spec: a [context.Context] as [adapter.ContextFrom]
    sees it, the inbound context it carries or nil. *)
Definition Context : Type := option InboundContext.

Record VLESSVPPL : Type := {
  Enabled : bool;
  Proxy : bool;
  Address : Socksaddr;
  Key : option PublicKey
}.

Record VLESS : Type := {
  tag : string;
  network : list string;
  dialer : Dialer;
  client : option Client;
  serverAddr : Socksaddr;
  multiplexDialer : option MuxClient;
  tlsConfig : option TLSConfig;
  transport : option Transport;
  packetAddr : bool;
  xudp : bool;
  vppl : VLESSVPPL;
  originDest : option (list byte)
}.

(** ** The collaborators: what each call returns

    The packages [vless.go] calls into ([dialer], [tls], [v2ray], [mux], the
    protocol client of [transport/vless], [crypto/rsa], [encoding/pem],
    [crypto/x509], sing's [metadata]) stand outside the two source files;
    a [World] fixes the outcome of each of their calls. *)
Record World : Type := {
  dialer_New : Options.DialerOptions -> result Dialer;
  ParseSocksaddrHostPort : string -> Z -> Socksaddr;
  pem_Decode : string -> option (list byte);
  x509_ParsePKIXPublicKey : list byte -> result ParsedKey;
  tls_NewClient : string -> Options.OutboundTLSOptions -> result TLSConfig;
  v2ray_NewClientTransport :
    Dialer -> Socksaddr -> Options.V2RayTransportOptions -> option TLSConfig
    -> result Transport;
  vless_NewClient : string -> string -> result Client;
  mux_NewClientWithOptions :
    Options.OutboundMultiplexOptions -> result (option MuxClient);
  Socksaddr_String : Socksaddr -> list byte;
  Socksaddr_IsFqdn : Socksaddr -> bool;
  rsa_EncryptPKCS1v15 : PublicKey -> list byte -> result (list byte);
  dialer_DialContext : Dialer -> Socksaddr -> result Conn;
  transport_DialContext : Transport -> result Conn;
  tls_ClientHandshake : Conn -> TLSConfig -> result Conn;
  client_DialEarlyConn :
    Client -> Conn -> Socksaddr -> option (list byte) -> result NetConn;
  client_DialEarlyXUDPPacketConn :
    Client -> Conn -> Socksaddr -> option (list byte) -> result NetConn;
  client_DialEarlyPacketConn : Client -> Conn -> Socksaddr -> result NetConn;
  mux_DialContext : MuxClient -> string -> Socksaddr -> result NetConn;
  mux_ListenPacket : MuxClient -> Socksaddr -> result NetConn
}.

(** ** [NewVLESS] *)

Definition pemText (key : string) : string :=
  ("-----BEGIN PUBLIC KEY-----"
   ++ String (Ascii.ascii_of_nat 10) key
   ++ String (Ascii.ascii_of_nat 10) "-----END PUBLIC KEY-----")%string.

Definition setVPPL (v : VLESSVPPL) (h : VLESS) : VLESS :=
  {| tag := tag h; network := network h; dialer := dialer h; client := client h;
     serverAddr := serverAddr h; multiplexDialer := multiplexDialer h;
     tlsConfig := tlsConfig h; transport := transport h;
     packetAddr := packetAddr h; xudp := xudp h; vppl := v;
     originDest := originDest h |}.

Definition setTLSConfig (c : option TLSConfig) (h : VLESS) : VLESS :=
  {| tag := tag h; network := network h; dialer := dialer h; client := client h;
     serverAddr := serverAddr h; multiplexDialer := multiplexDialer h;
     tlsConfig := c; transport := transport h;
     packetAddr := packetAddr h; xudp := xudp h; vppl := vppl h;
     originDest := originDest h |}.

Definition setTransport (t : option Transport) (h : VLESS) : VLESS :=
  {| tag := tag h; network := network h; dialer := dialer h; client := client h;
     serverAddr := serverAddr h; multiplexDialer := multiplexDialer h;
     tlsConfig := tlsConfig h; transport := t;
     packetAddr := packetAddr h; xudp := xudp h; vppl := vppl h;
     originDest := originDest h |}.

Definition setPacketEncoding (pa xu : bool) (h : VLESS) : VLESS :=
  {| tag := tag h; network := network h; dialer := dialer h; client := client h;
     serverAddr := serverAddr h; multiplexDialer := multiplexDialer h;
     tlsConfig := tlsConfig h; transport := transport h;
     packetAddr := pa; xudp := xu; vppl := vppl h;
     originDest := originDest h |}.

Definition setClient (c : option Client) (h : VLESS) : VLESS :=
  {| tag := tag h; network := network h; dialer := dialer h; client := c;
     serverAddr := serverAddr h; multiplexDialer := multiplexDialer h;
     tlsConfig := tlsConfig h; transport := transport h;
     packetAddr := packetAddr h; xudp := xudp h; vppl := vppl h;
     originDest := originDest h |}.

Definition setMultiplexDialer (m : option MuxClient) (h : VLESS) : VLESS :=
  {| tag := tag h; network := network h; dialer := dialer h; client := client h;
     serverAddr := serverAddr h; multiplexDialer := m;
     tlsConfig := tlsConfig h; transport := transport h;
     packetAddr := packetAddr h; xudp := xudp h; vppl := vppl h;
     originDest := originDest h |}.

Definition setOriginDest (d : option (list byte)) (h : VLESS) : VLESS :=
  {| tag := tag h; network := network h; dialer := dialer h; client := client h;
     serverAddr := serverAddr h; multiplexDialer := multiplexDialer h;
     tlsConfig := tlsConfig h; transport := transport h;
     packetAddr := packetAddr h; xudp := xudp h; vppl := vppl h;
     originDest := d |}.

Definition zeroVPPL : VLESSVPPL :=
  {| Enabled := false; Proxy := false; Address := zeroSocksaddr; Key := None |}.

(** The [if options.VPPL.Enabled] block of [NewVLESS]. *)
Definition buildVPPL (w : World) (o : Options.VPPLOutboundOptions)
  : result VLESSVPPL :=
  if Options.Enabled (Options.Base o) then
    let v := {| Enabled := true; Proxy := Options.Proxy (Options.Base o);
                Address := zeroSocksaddr; Key := None |} in
    if negb (Options.Proxy (Options.Base o)) then
      if (String.length (Options.Key (Options.Base o)) =? 0)%nat
      then Err VPPLNoPublicKey
      else
        match pem_Decode w (pemText (Options.Key (Options.Base o))) with
        | None => Panic
        | Some blockBytes =>
            publicKey <- x509_ParsePKIXPublicKey w blockBytes ;;
            match publicKey with
            | OtherKey => Panic
            | RSAKey k =>
                Ok {| Enabled := true; Proxy := Options.Proxy (Options.Base o);
                      Address := ParseSocksaddrHostPort w (Options.Host o)
                                   (uint16 (Options.Port o));
                      Key := Some k |}
            end
        end
    else Ok v
  else Ok zeroVPPL.

(** The packet-encoding switch of [NewVLESS]: [(packetAddr, xudp)].  The
    default case hands [E.New] the pointer [options.PacketEncoding], not the
    string behind it; [E.New] formats its arguments with sing's
    [F.ToString], which panics ("unknown value") on a value of a type it
    does not know, so no error value is ever built there. *)
Definition packetEncoding (enc : option string) : result (bool * bool) :=
  match enc with
  | None => Ok (false, true)
  | Some e =>
      if String.eqb e "" then Ok (false, false)
      else if String.eqb e "packetaddr" then Ok (true, false)
      else if String.eqb e "xudp" then Ok (false, true)
      else Panic
  end.

Definition NewVLESS (w : World) (tag0 : string)
  (options : Options.VLESSOutboundOptions) : result VLESS :=
  outboundDialer <- dialer_New w (Options.Dialer options) ;;
  let outbound :=
    {| tag := tag0; network := Options.Network options;
       dialer := outboundDialer; client := None;
       serverAddr :=
         ParseSocksaddrHostPort w
           (Options.Server (Options.ServerOptions options))
           (Options.ServerPort (Options.ServerOptions options));
       multiplexDialer := None; tlsConfig := None; transport := None;
       packetAddr := false; xudp := false; vppl := zeroVPPL;
       originDest := None |} in
  v <- buildVPPL w (Options.VPPL options) ;;
  let outbound := setVPPL v outbound in
  outbound <-
    match Options.TLS options with
    | Some tlsOptions =>
        c <- tls_NewClient w (Options.Server (Options.ServerOptions options))
               tlsOptions ;;
        Ok (setTLSConfig (Some c) outbound)
    | None => Ok outbound
    end ;;
  outbound <-
    match Options.Transport options with
    | Some transportOptions =>
        if Options.Enabled (Options.Base (Options.VPPL options))
        then Err VPPLNoTransport
        else
          t <- wrap CreateClientTransport
                 (v2ray_NewClientTransport w (dialer outbound)
                    (serverAddr outbound) transportOptions (tlsConfig outbound)) ;;
          Ok (setTransport (Some t) outbound)
    | None => Ok outbound
    end ;;
  '(pa, xu) <- packetEncoding (Options.PacketEncoding options) ;;
  let outbound := setPacketEncoding pa xu outbound in
  c <- vless_NewClient w (Options.UUID options) (Options.Flow options) ;;
  let outbound := setClient (Some c) outbound in
  m <- mux_NewClientWithOptions w
         (match Options.Multiplex options with
          | Some mo => mo
          | None => Options.zeroMultiplexOptions
          end) ;;
  Ok (setMultiplexDialer m outbound).

(** ** The dial path

    A dial runs on the shared adapter value, which it may write, and
    calls collaborators; [trace] lists those calls in order (logging is
    left out). *)

Inductive Event : Type :=
| EvEncrypt (plaintext : list byte)
| EvDial (server : Socksaddr)
| EvTransportDial
| EvTLSHandshake (conn : Conn)
| EvClose (conn : option Conn)
| EvDialEarlyConn (conn : Conn) (destination : Socksaddr)
    (originDest : option (list byte))
| EvDialEarlyXUDPPacketConn (conn : Conn) (destination : Socksaddr)
    (originDest : option (list byte))
| EvDialEarlyPacketConn (conn : Conn) (destination : Socksaddr)
| EvMuxDialContext (network : string) (destination : Socksaddr)
| EvMuxListenPacket (destination : Socksaddr).

Record DialState : Type := {
  adapter : VLESS;
  trace : list Event
}.

(** A dial attempt begins on the adapter as it stands, with no call made. *)
Definition start (h : VLESS) : DialState := {| adapter := h; trace := [] |}.

Definition DialM (A : Type) : Type := DialState -> result A * DialState.

Definition dret {A} (a : A) : DialM A := fun st => (Ok a, st).

Definition dbind {A B} (m : DialM A) (k : A -> DialM B) : DialM B :=
  fun st =>
    match m st with
    | (Ok a, st') => k a st'
    | (Err e, st') => (Err e, st')
    | (Panic, st') => (Panic, st')
    end.

Definition fail {A} (e : error) : DialM A := fun st => (Err e, st).

Definition panic {A} : DialM A := fun st => (Panic, st).

Definition self : DialM VLESS := fun st => (Ok (adapter st), st).

(** A call to a collaborator: recorded, then its outcome. *)
Definition call {A} (ev : Event) (r : result A) : DialM A :=
  fun st => (r, {| adapter := adapter st; trace := trace st ++ [ev] |}).

(** [h.originDest = d]. *)
Definition writeOriginDest (d : option (list byte)) : DialM unit :=
  fun st => (Ok tt, {| adapter := setOriginDest d (adapter st);
                       trace := trace st |}).

Declare Scope dial_scope.
Delimit Scope dial_scope with dial.
Notation "x <- m ;; k" := (dbind m (fun x => k))
  (at level 61, m at next level, right associativity) : dial_scope.
Notation "m ;;; k" := (dbind m (fun _ => k))
  (at level 61, right associativity) : dial_scope.

(** [N.NetworkName]. *)
Definition NetworkName (network0 : string) : string :=
  if String.prefix "tcp" network0 then "tcp"
  else if String.prefix "udp" network0 then "udp"
  else network0.

(** [M.Socksaddr{Fqdn: packetaddr.SeqPacketMagicAddress}]. *)
Definition SeqPacketMagicAddress : Socksaddr :=
  {| Addr := []; Port := 0;
     Fqdn := list_byte_of_string "sp.packet-addr.v2fly.arpa" |}.

Definition nilLen (s : option (list byte)) : nat :=
  match s with
  | Some l => length l
  | None => 0
  end.

(** The stream acquisition shared by [vlessDialer.DialContext] and
    [vlessDialer.ListenPacket]: from the transport, or a dial of [server]
    followed by the TLS handshake when TLS is configured. *)
Definition acquireStream (w : World) (destination : Socksaddr) : DialM Conn :=
  (h <- self ;;
   match transport h with
   | Some t => call EvTransportDial (transport_DialContext w t)
   | None =>
       let server :=
         if Enabled (vppl h) && Proxy (vppl h) then destination
         else serverAddr h in
       conn <- call (EvDial server) (dialer_DialContext w (dialer h) server) ;;
       match tlsConfig h with
       | Some cfg => call (EvTLSHandshake conn) (tls_ClientHandshake w conn cfg)
       | None => dret conn
       end
   end)%dial.

Definition withClient {A} (k : Client -> DialM A) : DialM A :=
  (h <- self ;;
   match client h with
   | Some c => k c
   | None => panic
   end)%dial.

(** [vlessDialer.DialContext]. *)
Definition vlessDialer_DialContext (w : World) (network0 : string)
  (destination : Socksaddr) : DialM NetConn :=
  (conn <- acquireStream w destination ;;
   h <- self ;;
   if String.eqb (NetworkName network0) "tcp" then
     withClient (fun c =>
       call (EvDialEarlyConn conn destination (originDest h))
            (client_DialEarlyConn w c conn destination (originDest h)))
   else if String.eqb (NetworkName network0) "udp" then
     if xudp h then
       withClient (fun c =>
         call (EvDialEarlyXUDPPacketConn conn destination (originDest h))
              (client_DialEarlyXUDPPacketConn w c conn destination (originDest h)))
     else if packetAddr h then
       if Socksaddr_IsFqdn w destination then fail PacketaddrDomainUnsupported
       else
         withClient (fun c =>
           packetConn <- call (EvDialEarlyPacketConn conn SeqPacketMagicAddress)
                           (client_DialEarlyPacketConn w c conn SeqPacketMagicAddress) ;;
           dret (BindPacketConn (PacketAddrConn packetConn destination) destination))
     else
       withClient (fun c =>
         call (EvDialEarlyPacketConn conn destination)
              (client_DialEarlyPacketConn w c conn destination))
   else fail (ErrUnknownNetwork network0))%dial.

(** [vlessDialer.ListenPacket]. *)
Definition vlessDialer_ListenPacket (w : World) (destination : Socksaddr)
  : DialM NetConn :=
  fun st =>
    match acquireStream w destination st with
    | (Err e, st') =>
        (Err e, {| adapter := adapter st'; trace := trace st' ++ [EvClose None] |})
    | (Panic, st') => (Panic, st')
    | (Ok conn, st') =>
        (h <- self ;;
         if xudp h then
           withClient (fun c =>
             call (EvDialEarlyXUDPPacketConn conn destination (originDest h))
                  (client_DialEarlyXUDPPacketConn w c conn destination (originDest h)))
         else if packetAddr h then
           if Socksaddr_IsFqdn w destination then fail PacketaddrDomainUnsupported
           else
             withClient (fun c =>
               packetConn <- call (EvDialEarlyPacketConn conn SeqPacketMagicAddress)
                               (client_DialEarlyPacketConn w c conn SeqPacketMagicAddress) ;;
               dret (PacketAddrConn packetConn destination))
         else
           withClient (fun c =>
             call (EvDialEarlyPacketConn conn destination)
                  (client_DialEarlyPacketConn w c conn destination)))%dial st'
    end.

(** The [if h.vppl.Enabled] block of [VLESS.DialContext]: it writes
    [h.originDest] and gives the destination to go on with. *)
Definition resolveVPPL (w : World) (ctx : Context) (destination : Socksaddr)
  : DialM Socksaddr :=
  (h <- self ;;
   if Enabled (vppl h) then
     if negb (Proxy (vppl h)) then
       writeOriginDest (Some (Socksaddr_String w destination)) ;;;
       encDest <- call (EvEncrypt (Socksaddr_String w destination))
                    (match Key (vppl h) with
                     | Some k => rsa_EncryptPKCS1v15 w k (Socksaddr_String w destination)
                     | None => Panic
                     end) ;;
       writeOriginDest (Some encDest) ;;;
       dret (Address (vppl h))
     else
       match ctx with
       | None => panic
       | Some inbCtx =>
           if (nilLen (VPPLdestination inbCtx) =? 0)%nat
           then fail VPPLDestinationEmpty
           else
             writeOriginDest (VPPLdestination inbCtx) ;;;
             dret destination
       end
   else dret destination)%dial.

(** [VLESS.DialContext]. *)
Definition DialContext (w : World) (ctx : Context) (network0 : string)
  (destination : Socksaddr) : DialM NetConn :=
  (destination <- resolveVPPL w ctx destination ;;
   h <- self ;;
   match multiplexDialer h with
   | None => vlessDialer_DialContext w network0 destination
   | Some m =>
       call (EvMuxDialContext network0 destination)
            (mux_DialContext w m network0 destination)
   end)%dial.

(** [VLESS.ListenPacket]. *)
Definition ListenPacket (w : World) (destination : Socksaddr) : DialM NetConn :=
  (h <- self ;;
   match multiplexDialer h with
   | None => vlessDialer_ListenPacket w destination
   | Some m =>
       call (EvMuxListenPacket destination) (mux_ListenPacket w m destination)
   end)%dial.

(** The servers the adapter's own dialer was asked to connect to. *)
Definition physicalTargets (tr : list Event) : list Socksaddr :=
  flat_map (fun ev => match ev with EvDial s => [s] | _ => [] end) tr.

(** The handshakes handed to the protocol client: the declared
    destination and, where the call takes one, the obfuscated
    destination. *)
Definition negotiations (tr : list Event)
  : list (Socksaddr * option (option (list byte))) :=
  flat_map (fun ev =>
    match ev with
    | EvDialEarlyConn _ d od => [(d, Some od)]
    | EvDialEarlyXUDPPacketConn _ d od => [(d, Some od)]
    | EvDialEarlyPacketConn _ d => [(d, None)]
    | _ => []
    end) tr.

(** The calls that reach the network or a collaborator holding a
    stream: everything but the local encryption. *)
Definition networkIO (tr : list Event) : list Event :=
  filter (fun ev => match ev with EvEncrypt _ => false | _ => true end) tr.

(** The streams closed by the dial. *)
Definition closed (tr : list Event) : list Conn :=
  flat_map (fun ev => match ev with EvClose (Some c) => [c] | _ => [] end) tr.

End Outbound.

(* ================================================================== *)
(** * Concrete inputs

    A world of collaborators in which every call succeeds, three
    addresses, and a few requests, adapters and option blocks on which the
    model is evaluated. *)

Module Example.
Import Outbound.

Definition server : Socksaddr :=
  {| Addr := [x0a; x00; x00; x01]; Port := 443; Fqdn := [] |}.

Definition relay : Socksaddr :=
  {| Addr := [x0a; x00; x00; x02]; Port := 8443; Fqdn := [] |}.

Definition target : Socksaddr :=
  {| Addr := []; Port := 443; Fqdn := list_byte_of_string "example.com" |}.

Definition world : World :=
  {| dialer_New := fun _ => Ok (dialerHandle 0);
     ParseSocksaddrHostPort := fun host port =>
       {| Addr := []; Port := port; Fqdn := list_byte_of_string host |};
     pem_Decode := fun text => Some (list_byte_of_string text);
     x509_ParsePKIXPublicKey := fun _ => Ok (RSAKey (rsaPublicKey 0));
     tls_NewClient := fun _ _ => Ok (tlsConfigHandle 0);
     v2ray_NewClientTransport := fun _ _ _ _ => Ok (transportHandle 0);
     vless_NewClient := fun _ _ => Ok (clientHandle 0);
     mux_NewClientWithOptions := fun _ => Ok None;
     Socksaddr_String := fun d => Fqdn d ++ Addr d ++ PutUint16 (Port d);
     Socksaddr_IsFqdn := fun d => negb (isEmpty (Fqdn d));
     rsa_EncryptPKCS1v15 := fun _ m => Ok (x00 :: x02 :: rev m);
     dialer_DialContext := fun _ _ => Ok (connHandle 1);
     transport_DialContext := fun _ => Ok (connHandle 2);
     tls_ClientHandshake := fun _ _ => Ok (connHandle 3);
     client_DialEarlyConn := fun _ _ _ _ => Ok (Handle 4);
     client_DialEarlyXUDPPacketConn := fun _ _ _ _ => Ok (Handle 5);
     client_DialEarlyPacketConn := fun _ _ _ => Ok (Handle 6);
     mux_DialContext := fun _ _ _ => Ok (Handle 7);
     mux_ListenPacket := fun _ _ => Ok (Handle 8) |}.

(** What [world] returns for the encryption of [target]'s string form. *)
Definition sealedTarget : list byte :=
  x00 :: x02 :: rev (Socksaddr_String world target).

(** An adapter in ClientEncrypt mode: enabled, not proxy. *)
Definition clientEncrypt : VLESS :=
  {| tag := "vless-out"; network := ["tcp"; "udp"]%string;
     dialer := dialerHandle 0; client := Some (clientHandle 0);
     serverAddr := server; multiplexDialer := None; tlsConfig := None;
     transport := None; packetAddr := false; xudp := true;
     vppl := {| Enabled := true; Proxy := false; Address := relay;
                Key := Some (rsaPublicKey 0) |};
     originDest := None |}.

(** An adapter in RelayPassthrough mode: enabled, proxy. *)
Definition relayPassthrough : VLESS :=
  setVPPL {| Enabled := true; Proxy := true; Address := zeroSocksaddr;
             Key := None |} clientEncrypt.

(** An adapter without the extension, with packetaddr framing. *)
Definition packetaddr : VLESS :=
  setPacketEncoding true false (setVPPL zeroVPPL clientEncrypt).

(** Options of a ClientEncrypt adapter with a key and no relay address. *)
Definition optionsNoRelay : Options.VLESSOutboundOptions :=
  {| Options.Dialer := Options.dialerOptions 0;
     Options.ServerOptions :=
       {| Options.Server := "10.0.0.1"; Options.ServerPort := 443 |};
     Options.UUID := "00000000-0000-0000-0000-000000000000";
     Options.Flow := "";
     Options.Network := [];
     Options.TLS := None;
     Options.Multiplex := None;
     Options.Transport := None;
     Options.PacketEncoding := None;
     Options.VPPL :=
       {| Options.Base := {| Options.Enabled := true; Options.PathToKey := "";
                             Options.Key := "MIIBIjANBgkqhkiG9w0BAQEFAAOCAQ8A";
                             Options.Proxy := false |};
          Options.Host := ""; Options.Port := 0 |} |}.

(** The same options with the key [key] and the proxy flag [proxy]. *)
Definition optionsWith (key : string) (proxy : bool)
  : Options.VLESSOutboundOptions :=
  {| Options.Dialer := Options.Dialer optionsNoRelay;
     Options.ServerOptions := Options.ServerOptions optionsNoRelay;
     Options.UUID := Options.UUID optionsNoRelay;
     Options.Flow := Options.Flow optionsNoRelay;
     Options.Network := Options.Network optionsNoRelay;
     Options.TLS := Options.TLS optionsNoRelay;
     Options.Multiplex := Options.Multiplex optionsNoRelay;
     Options.Transport := Options.Transport optionsNoRelay;
     Options.PacketEncoding := Options.PacketEncoding optionsNoRelay;
     Options.VPPL :=
       {| Options.Base := {| Options.Enabled := true; Options.PathToKey := "";
                             Options.Key := key; Options.Proxy := proxy |};
          Options.Host := "10.0.0.2"; Options.Port := 8443 |} |}.

(** A TCP request with a flow and no obfuscated destination. *)
Definition flowOnly : Request :=
  {| UUID := repeat x00 16; Command := CommandTCP; Destination := server;
     Flow := list_byte_of_string "xtls-rprx-vision"; VPPLDestAddr := None |}.

(** A TCP request carrying an obfuscated destination. *)
Definition anchored : Request :=
  {| UUID := repeat x00 16; Command := CommandTCP; Destination := relay;
     Flow := []; VPPLDestAddr := Some [x00; x02; x6d; x6f; x63] |}.

Definition payload : list byte := list_byte_of_string "GET /".

(** A world in which the encryption fails. *)
Definition worldEncryptFails : World :=
  {| dialer_New := dialer_New world;
     ParseSocksaddrHostPort := ParseSocksaddrHostPort world;
     pem_Decode := pem_Decode world;
     x509_ParsePKIXPublicKey := x509_ParsePKIXPublicKey world;
     tls_NewClient := tls_NewClient world;
     v2ray_NewClientTransport := v2ray_NewClientTransport world;
     vless_NewClient := vless_NewClient world;
     mux_NewClientWithOptions := mux_NewClientWithOptions world;
     Socksaddr_String := Socksaddr_String world;
     Socksaddr_IsFqdn := Socksaddr_IsFqdn world;
     rsa_EncryptPKCS1v15 := fun _ _ => Err (External 7);
     dialer_DialContext := dialer_DialContext world;
     transport_DialContext := transport_DialContext world;
     tls_ClientHandshake := tls_ClientHandshake world;
     client_DialEarlyConn := client_DialEarlyConn world;
     client_DialEarlyXUDPPacketConn := client_DialEarlyXUDPPacketConn world;
     client_DialEarlyPacketConn := client_DialEarlyPacketConn world;
     mux_DialContext := mux_DialContext world;
     mux_ListenPacket := mux_ListenPacket world |}.

(** The ClientEncrypt adapter behind a multiplex client. *)
Definition multiplexed : VLESS :=
  setMultiplexDialer (Some (muxHandle 0)) clientEncrypt.

(** The packetaddr adapter over a transport. *)
Definition overTransport : VLESS :=
  setTransport (Some (transportHandle 0)) packetaddr.

(** The inbound context of a relay: the blob an upstream hop sealed. *)
Definition relayed : InboundContext :=
  {| VPPLdestination := Some sealedTarget |}.

(** Options with the extension switched by [enabled], a packet encoding
    and a transport. *)
Definition optionsOf (enabled : bool) (enc : option string)
  (tr : option Options.V2RayTransportOptions) : Options.VLESSOutboundOptions :=
  {| Options.Dialer := Options.Dialer optionsNoRelay;
     Options.ServerOptions := Options.ServerOptions optionsNoRelay;
     Options.UUID := Options.UUID optionsNoRelay;
     Options.Flow := Options.Flow optionsNoRelay;
     Options.Network := Options.Network optionsNoRelay;
     Options.TLS := None;
     Options.Multiplex := None;
     Options.Transport := tr;
     Options.PacketEncoding := enc;
     Options.VPPL :=
       {| Options.Base := {| Options.Enabled := enabled; Options.PathToKey := "";
                             Options.Key := "MIIB"; Options.Proxy := true |};
          Options.Host := ""; Options.Port := 0 |} |}.

(** A TCP request without flow and obfuscated destination. *)
Definition plain : Request :=
  {| UUID := repeat x00 16; Command := CommandTCP; Destination := server;
     Flow := []; VPPLDestAddr := None |}.

(** A MUX request that still names a destination. *)
Definition muxed : Request :=
  {| UUID := repeat x00 16; Command := CommandMux; Destination := server;
     Flow := list_byte_of_string "xtls-rprx-vision"; VPPLDestAddr := None |}.

(** The bytes the serializer writes for [server] and for [relay]. *)
Definition serverBytes : list byte := [x01; xbb; x01; x0a; x00; x00; x01].
Definition relayBytes : list byte := [x20; xfb; x01; x0a; x00; x00; x02].

End Example.

(* ================================================================== *)
(** * Lemmas: bytes and varints *)

Lemma byte_to_Z_range (b : byte) : 0 <= byte_to_Z b < 256.
Proof.
  unfold byte_to_Z. pose proof (Byte.to_N_bounded b). lia.
Qed.

Lemma byte_to_of_Z (z : Z) : byte_to_Z (byte_of_Z z) = z mod 256.
Proof.
  unfold byte_to_Z, byte_of_Z.
  assert (Hr : 0 <= z mod 256 < 256) by (apply Z.mod_pos_bound; lia).
  destruct (Byte.of_N (Z.to_N (z mod 256))) as [b|] eqn:E.
  - apply Byte.to_of_N in E. rewrite E. lia.
  - apply Byte.of_N_None_iff in E. lia.
Qed.

Lemma byte_of_to_Z (b : byte) : byte_of_Z (byte_to_Z b) = b.
Proof.
  unfold byte_of_Z. pose proof (byte_to_Z_range b) as Hr.
  rewrite Z.mod_small by lia. unfold byte_to_Z.
  rewrite N2Z.id, Byte.of_to_N. reflexivity.
Qed.

Lemma PutUvarint_loop_length (fuel : nat) (x : Z) :
  (0 < length (PutUvarint_loop fuel x) <= S fuel)%nat.
Proof.
  revert x. induction fuel as [|f IH]; intro x; simpl.
  - lia.
  - destruct (128 <=? x); simpl; [specialize (IH (Z.shiftr x 7))|]; lia.
Qed.

Lemma PutUvarint_loop_small (fuel : nat) (x : Z) :
  x < 128 -> PutUvarint_loop fuel x = [byte_of_Z x].
Proof.
  intros H. destruct fuel; simpl; [reflexivity|].
  destruct (Z.leb_spec 128 x); [lia|reflexivity].
Qed.

(** The loop of [PutUvarint] never misses fuel on a [uint64]: more rounds
    than nine change nothing. *)
Lemma PutUvarint_loop_fuel (k : nat) : forall (n : nat) (x : Z),
  (k <= n)%nat -> 0 <= x < 2 ^ (7 * Z.of_nat k + 7) ->
  PutUvarint_loop n x = PutUvarint_loop k x.
Proof.
  induction k as [|k IH]; intros n x Hn Hx.
  - change (2 ^ (7 * Z.of_nat 0 + 7)) with 128 in Hx.
    rewrite !PutUvarint_loop_small by lia. reflexivity.
  - destruct n as [|n]; [lia|]. cbn [PutUvarint_loop].
    destruct (128 <=? x); [|reflexivity]. f_equal. apply IH; [lia|].
    rewrite Z.shiftr_div_pow2 by lia. change (2 ^ 7) with 128.
    replace (7 * Z.of_nat (S k) + 7) with (7 * Z.of_nat k + 7 + 7) in Hx by lia.
    rewrite (Z.pow_add_r _ _ 7) in Hx by lia. change (2 ^ 7) with 128 in Hx.
    split; [apply Z.div_pos; lia|apply Z.div_lt_upper_bound; lia].
Qed.

Lemma PutUvarint_fuel (n : nat) (x : Z) :
  (9 <= n)%nat -> 0 <= x < 2 ^ 64 -> PutUvarint_loop n x = PutUvarint x.
Proof.
  intros Hn Hx. unfold PutUvarint. apply PutUvarint_loop_fuel; [exact Hn|].
  change (7 * Z.of_nat 9 + 7) with 70.
  assert (2 ^ 64 <= 2 ^ 70) by (apply Z.pow_le_mono_r; lia). lia.
Qed.

(** An encoding has one byte per started group of seven bits. *)
Lemma PutUvarint_loop_len (fuel : nat) : forall (k : nat) (x : Z),
  (k <= fuel)%nat -> 2 ^ (7 * Z.of_nat k) <= x < 2 ^ (7 * Z.of_nat k + 7) ->
  length (PutUvarint_loop fuel x) = S k.
Proof.
  induction fuel as [|f IH]; intros k x Hk Hx.
  - assert (k = 0%nat) by lia; subst. reflexivity.
  - destruct k as [|k].
    + simpl in Hx. change (2 ^ 7) with 128 in Hx.
      rewrite PutUvarint_loop_small by lia. reflexivity.
    + simpl PutUvarint_loop.
      assert (E: 7 * Z.of_nat (S k) = 7 * Z.of_nat k + 7) by lia. rewrite E in Hx.
      assert (128 <= x).
      { destruct Hx as [Hx _]. rewrite Z.pow_add_r in Hx by lia.
        change (2 ^ 7) with 128 in Hx.
        assert (1 <= 2 ^ (7 * Z.of_nat k))
          by (apply Z.pow_le_mono_r with (b := 0) (c := 7 * Z.of_nat k); lia).
        nia. }
      destruct (Z.leb_spec 128 x); [|lia]. simpl. f_equal. apply IH; [lia|].
      rewrite Z.shiftr_div_pow2 by lia. destruct Hx as [Ha Hb].
      rewrite Z.pow_add_r in Ha, Hb by lia. change (2^7) with 128 in *.
      split.
      * apply Z.div_le_lower_bound; lia.
      * apply Z.div_lt_upper_bound; lia.
Qed.

(** [rw.UVariantLen] is the length of what [binary.PutUvarint] writes. *)
Lemma PutUvarint_length (x : Z) :
  0 <= x < 2 ^ 64 -> length (PutUvarint x) = UVariantLen x.
Proof.
  intros [H0 H1]. unfold PutUvarint, UVariantLen.
  repeat match goal with
  | |- context [?a <? ?b] => destruct (Z.ltb_spec a b)
  end;
  match goal with
  | |- _ = S ?k => try (apply (@PutUvarint_loop_len 9 k x); [lia | cbn; lia])
  end.
  rewrite PutUvarint_loop_small by lia. reflexivity.
Qed.

Lemma testbit_small (a k n : Z) :
  0 <= k -> 0 <= a < 2 ^ k -> k <= n -> Z.testbit a n = false.
Proof.
  intros Hk Ha Hn. rewrite <- (Z.mod_small a (2 ^ k)) by exact Ha.
  apply Z.mod_pow2_bits_high. lia.
Qed.

Lemma lor_bound (a b k : Z) :
  0 <= k -> 0 <= a < 2 ^ k -> 0 <= b < 2 ^ k -> 0 <= Z.lor a b < 2 ^ k.
Proof.
  intros Hk Ha Hb.
  assert (E : Z.lor a b = Z.lor a b mod 2 ^ k).
  { apply Z.bits_inj'. intros n Hn.
    destruct (Z.lt_ge_cases n k).
    - rewrite Z.mod_pow2_bits_low by lia. reflexivity.
    - rewrite Z.mod_pow2_bits_high by lia. rewrite Z.lor_spec.
      rewrite (@testbit_small a k n), (@testbit_small b k n) by lia. reflexivity. }
  rewrite E. apply Z.mod_pos_bound. apply Z.pow_pos_nonneg; lia.
Qed.

Lemma shiftl_bound (y s k : Z) :
  0 <= s -> 0 <= k -> 0 <= y < 2 ^ k -> 0 <= Z.shiftl y s < 2 ^ (k + s).
Proof.
  intros Hs Hk Hy. rewrite Z.shiftl_mul_pow2 by lia. rewrite Z.pow_add_r by lia.
  assert (0 < 2 ^ s) by (apply Z.pow_pos_nonneg; lia). nia.
Qed.

Lemma pow2_le_mono (a b : Z) : 0 <= a <= b -> 2 ^ a <= 2 ^ b.
Proof. intros H. apply Z.pow_le_mono_r; lia. Qed.

Lemma continuation_low7 (y : Z) :
  Z.land (byte_to_Z (byte_of_Z (Z.lor y 128))) 127 = y mod 128.
Proof.
  rewrite byte_to_of_Z. change 256 with (2 ^ 8). change (y mod 128) with (y mod 2 ^ 7).
  apply Z.bits_inj'. intros n Hn. rewrite Z.land_spec.
  destruct (Z.lt_ge_cases n 7).
  - rewrite !Z.mod_pow2_bits_low by lia. rewrite Z.lor_spec.
    change 128 with (2 ^ 7). rewrite Z.pow2_bits_eqb by lia.
    change 127 with (Z.ones 7). rewrite Z.ones_spec_low by lia.
    replace (7 =? n) with false by (symmetry; apply Z.eqb_neq; lia).
    rewrite orb_false_r, andb_true_r. reflexivity.
  - rewrite (Z.mod_pow2_bits_high y 7 n) by lia.
    change 127 with (Z.ones 7). rewrite Z.ones_spec_high by lia.
    apply andb_false_r.
Qed.

Lemma continuation_high (y : Z) :
  128 <= byte_to_Z (byte_of_Z (Z.lor y 128)).
Proof.
  rewrite byte_to_of_Z.
  assert (Hr : 0 <= Z.lor y 128 mod 256 < 256) by (apply Z.mod_pos_bound; lia).
  destruct (Z.lt_ge_cases (Z.lor y 128 mod 256) 128) as [Hlt|]; [exfalso|assumption].
  assert (Hb : Z.testbit (Z.lor y 128 mod 2 ^ 8) 7 = true).
  { rewrite Z.mod_pow2_bits_low by lia. rewrite Z.lor_spec.
    change 128 with (2 ^ 7). rewrite Z.pow2_bits_eqb by lia. apply orb_true_r. }
  change (2 ^ 8) with 256 in Hb.
  rewrite (@testbit_small _ 7 7) in Hb; [discriminate|lia| |lia].
  change (2 ^ 7) with 128. lia.
Qed.

Lemma split_low7 (y s : Z) :
  0 <= s ->
  Z.lor (Z.shiftl (y mod 128) s) (Z.shiftl (Z.shiftr y 7) (s + 7)) = Z.shiftl y s.
Proof.
  intros Hs. change 128 with (2 ^ 7).
  apply Z.bits_inj'. intros n Hn.
  rewrite Z.lor_spec, !Z.shiftl_spec by lia.
  destruct (Z.lt_ge_cases (n - s) 0).
  - rewrite !Z.testbit_neg_r by lia. reflexivity.
  - destruct (Z.lt_ge_cases (n - s) 7).
    + rewrite Z.mod_pow2_bits_low by lia.
      rewrite (Z.testbit_neg_r _ (n - (s + 7))) by lia. apply orb_false_r.
    + rewrite Z.mod_pow2_bits_high by lia.
      rewrite Z.shiftr_spec by lia. simpl. f_equal. lia.
Qed.

Lemma uint64_small (x : Z) : 0 <= x < 2 ^ 64 -> uint64 x = x.
Proof. intros H. unfold uint64. apply Z.mod_small. exact H. Qed.

Lemma ReadUvarint_loop_cons (n : nat) (i x s : Z) (b : byte) (r : list byte) :
  ReadUvarint_loop (S n) i x s (b :: r)
  = if byte_to_Z b <? 128 then
      if (i =? 9) && (1 <? byte_to_Z b) then Err ErrVarintOverflow
      else Ok (uint64 (Z.lor x (Z.shiftl (byte_to_Z b) s)), r)
    else ReadUvarint_loop n (i + 1)
           (uint64 (Z.lor x (Z.shiftl (Z.land (byte_to_Z b) 127) s))) (s + 7) r.
Proof. reflexivity. Qed.

Lemma ReadUvarint_loop_PutUvarint_loop (n : nat) :
  forall (i acc y : Z) (rest : list byte),
    Z.of_nat n = 9 - i -> 0 <= i ->
    0 <= acc < 2 ^ (7 * i) ->
    0 <= y < 2 ^ (64 - 7 * i) ->
    ReadUvarint_loop (S n) i acc (7 * i) (PutUvarint_loop n y ++ rest)
    = Ok (Z.lor acc (Z.shiftl y (7 * i)), rest).
Proof.
  induction n as [|m IH]; intros i acc y rest Hn Hi Hacc Hy.
  - assert (i = 9) by lia. subst i. change (64 - 7 * 9) with 1 in Hy.
    change (2 ^ 1) with 2 in Hy.
    cbn [PutUvarint_loop app]. rewrite ReadUvarint_loop_cons.
    rewrite byte_to_of_Z, Z.mod_small by lia.
    destruct (Z.ltb_spec y 128); [|lia].
    destruct (Z.ltb_spec 1 y); [lia|]. rewrite andb_false_r.
    rewrite uint64_small; [reflexivity|].
    change 64 with (63 + 1). rewrite Z.pow_add_r by lia.
    assert (0 <= Z.lor acc (Z.shiftl y 63) < 2 ^ 64); [|assumption].
    apply lor_bound; [lia| |].
    + change (7 * 9) with 63 in Hacc. change (2 ^ 64) with (2 * 2 ^ 63). lia.
    + change 64 with (1 + 63). apply shiftl_bound; lia.
  - assert (Hi8 : i <= 8) by lia.
    assert (Hp : 2 ^ (7 * i + 7) <= 2 ^ 63) by (apply pow2_le_mono; lia).
    assert (Hq : 2 ^ 63 < 2 ^ 64) by (apply Z.pow_lt_mono_r; lia).
    cbn [PutUvarint_loop].
    destruct (Z.leb_spec 128 y) as [Hge|Hlt].
    + cbn [app]. rewrite ReadUvarint_loop_cons.
      pose proof (continuation_high y) as Hh.
      destruct (Z.ltb_spec (byte_to_Z (byte_of_Z (Z.lor y 128))) 128); [lia|].
      rewrite continuation_low7.
      assert (Hacc' : 0 <= Z.lor acc (Z.shiftl (y mod 128) (7 * i)) < 2 ^ (7 * (i + 1))).
      { replace (7 * (i + 1)) with (7 * i + 7) by lia. apply lor_bound; [lia| |].
        - split; [lia|].
          apply Z.lt_le_trans with (2 ^ (7 * i)); [lia|apply pow2_le_mono; lia].
        - replace (7 * i + 7) with (7 + 7 * i) by lia. apply shiftl_bound; [lia|lia|].
          change (2 ^ 7) with 128. apply Z.mod_pos_bound. lia. }
      replace (7 * (i + 1)) with (7 * i + 7) in Hacc' by lia.
      rewrite uint64_small by lia.
      replace (7 * i + 7) with (7 * (i + 1)) by lia.
      rewrite IH; [| lia | lia | replace (7 * (i + 1)) with (7 * i + 7) by lia; lia |].
      * rewrite <- Z.lor_assoc. replace (7 * (i + 1)) with (7 * i + 7) by lia.
        rewrite split_low7 by lia. reflexivity.
      * rewrite Z.shiftr_div_pow2 by lia. change (2 ^ 7) with 128.
        replace (64 - 7 * i) with ((64 - 7 * (i + 1)) + 7) in Hy by lia.
        rewrite Z.pow_add_r in Hy by lia. change (2 ^ 7) with 128 in Hy.
        split; [apply Z.div_pos; lia|apply Z.div_lt_upper_bound; lia].
    + cbn [app]. rewrite ReadUvarint_loop_cons.
      rewrite byte_to_of_Z, Z.mod_small by lia.
      destruct (Z.ltb_spec y 128); [|lia].
      replace (i =? 9) with false by (symmetry; apply Z.eqb_neq; lia).
      rewrite andb_false_l. rewrite uint64_small; [reflexivity|].
      assert (0 <= Z.lor acc (Z.shiftl y (7 * i)) < 2 ^ (7 * i + 7)); [|lia].
      apply lor_bound; [lia| |].
      * split; [lia|].
        apply Z.lt_le_trans with (2 ^ (7 * i)); [lia|apply pow2_le_mono; lia].
      * replace (7 * i + 7) with (7 + 7 * i) by lia. apply shiftl_bound; [lia|lia|].
        change (2 ^ 7) with 128. lia.
Qed.

(** [rw.ReadUVariant] reads back what [binary.PutUvarint] wrote and stops
    after it. *)
Lemma ReadUVariant_PutUvarint (x : Z) (rest : list byte) :
  0 <= x < 2 ^ 64 -> ReadUVariant (PutUvarint x ++ rest) = Ok (x, rest).
Proof.
  intros Hx. unfold ReadUVariant, PutUvarint.
  change (ReadUvarint_loop 10 0 0 0) with (ReadUvarint_loop 10 0 0 (7 * 0)).
  rewrite (@ReadUvarint_loop_PutUvarint_loop 9 0 0 x rest) by lia.
  rewrite Z.lor_0_l, Z.shiftl_0_r. reflexivity.
Qed.

(* ================================================================== *)
(** * Lemmas: the buffer and the encoder *)

Lemma uint64_range (z : Z) : 0 <= uint64 z < 2 ^ 64.
Proof. unfold uint64. apply Z.mod_pos_bound. reflexivity. Qed.

Lemma put_put (p q : list byte) (b : Buffer) : put q (put p b) = put (p ++ q) b.
Proof. unfold put; simpl. rewrite app_assoc. reflexivity. Qed.

Lemma put_nil (b : Buffer) : put [] b = b.
Proof. destruct b; unfold put; simpl. rewrite app_nil_r. reflexivity. Qed.

Lemma data_put p b : data (put p b) = data b ++ p.
Proof. reflexivity. Qed.

Lemma capacity_put p b : capacity (put p b) = capacity b.
Proof. reflexivity. Qed.

Lemma WriteByte_fits (d : byte) (b : Buffer) :
  (length (data b) + 1 <= capacity b)%nat -> must (WriteByte d b) = Ok (put [d] b).
Proof.
  intros H. unfold WriteByte, IsFull.
  destruct (Nat.leb_spec (capacity b) (length (data b))); [lia|reflexivity].
Qed.

Lemma Write_fits (p : list byte) (b : Buffer) :
  (length (data b) + length p <= capacity b)%nat -> must (Write p b) = Ok (put p b).
Proof.
  intros H. unfold Write. destruct p as [|x p'].
  - rewrite put_nil. reflexivity.
  - unfold IsFull, FreeLen. simpl in H.
    destruct (Nat.leb_spec (capacity b) (length (data b))); [lia|].
    rewrite firstn_all2 by (simpl; lia). reflexivity.
Qed.

Lemma ExtendPutUvarint_fits (x : Z) (b : Buffer) :
  0 <= x < 2 ^ 64 ->
  (length (data b) + UVariantLen x <= capacity b)%nat ->
  ExtendPutUvarint (UVariantLen x) x b = Ok (put (PutUvarint x) b).
Proof.
  intros Hx H. unfold ExtendPutUvarint, FreeLen.
  rewrite PutUvarint_length by exact Hx.
  destruct (Nat.ltb_spec (capacity b - length (data b)) (UVariantLen x)); [lia|].
  rewrite Nat.ltb_irrefl, Nat.sub_diag. simpl. rewrite app_nil_r. reflexivity.
Qed.

Lemma ExtendPutUvarint_zero (b : Buffer) :
  (length (data b) + 1 <= capacity b)%nat ->
  ExtendPutUvarint 1 0 b = Ok (put [x00] b).
Proof.
  intros H. unfold ExtendPutUvarint, FreeLen.
  destruct (Nat.ltb_spec (capacity b - length (data b)) 1); [lia|reflexivity].
Qed.

Lemma addonsWire_length (r : Request) : length (addonsWire r) = RequestAddonLen r.
Proof.
  unfold addonsWire, RequestAddonLen.
  destruct (Flow r) as [|f fl] eqn:EF; destruct (VPPLDestAddr r) as [dest|] eqn:EV;
    cbn [isEmpty isNil negb orb andb]; try reflexivity;
    match goal with |- context [(0 <? ?n)%nat] => destruct (Nat.ltb_spec 0 n) end.
    all: rewrite ?length_app, ?PutUvarint_length by apply uint64_range;
      change (UVariantLen 0) with 1%nat; cbn [length]; lia.
Qed.

Ltac buf_fits :=
  rewrite ?data_put, ?capacity_put, ?length_app in *;
  rewrite ?PutUvarint_length in * by apply uint64_range;
  cbn [NewSize data capacity length] in *; lia.

Ltac buf_step :=
  first [ rewrite WriteByte_fits by buf_fits
        | rewrite Write_fits by buf_fits
        | rewrite ExtendPutUvarint_fits by (first [apply uint64_range | buf_fits])
        | rewrite ExtendPutUvarint_zero by buf_fits ];
  cbn [rbind]; rewrite ?put_put.

Section Encode.
Context `{AddressSerializer}.

Lemma requestWire_length (r : Request) (addr : list byte) :
  length (UUID r) = 16%nat ->
  length (requestWire r addr)
  = (1 + 16 + UVariantLen (uint64 (Z.of_nat (RequestAddonLen r)))
     + RequestAddonLen r + 1 + length addr)%nat.
Proof.
  intros Hu. unfold requestWire.
  rewrite !length_app, PutUvarint_length, addonsWire_length, Hu by apply uint64_range.
  simpl. lia.
Qed.

Lemma EncodeRequest_fits (r : Request) (b : Buffer) :
  length (UUID r) = 16%nat ->
  (length (data b) + (18 + UVariantLen (uint64 (Z.of_nat (RequestAddonLen r)))
     + RequestAddonLen r) <= capacity b)%nat ->
  EncodeRequest r b
  = (let b' := put (requestWire r []) b in
     if negb (Byte.eqb (Command r) CommandMux)
     then BufferWriteAddrPort (Destination r) b' else Ok b').
Proof.
  intros Hu Hcap. unfold EncodeRequest, requestWire.
  pose proof (addonsWire_length r) as Hal. unfold addonsWire in *.
  destruct (Nat.ltb_spec 0 (RequestAddonLen r)) as [Hpos|Hz].
  - destruct (VPPLDestAddr r) as [dest|];
      (destruct (Nat.ltb_spec 0 (length (Flow r))) as [Hf|Hf];
       [|destruct (Flow r); [|simpl in Hf; lia]]);
      repeat buf_step; cbv zeta;
      rewrite <- ?app_assoc, ?app_nil_r; reflexivity.
  - repeat buf_step; cbv zeta. rewrite <- ?app_assoc, ?app_nil_r. reflexivity.
Qed.
End Encode.

Section EncodeTheorems.
Context `{AddressSerializer}.

Lemma BufferWriteAddrPort_fits (d : Socksaddr) (bs : list byte) (b : Buffer) :
  WriteAddrPort d = Ok bs ->
  (length (data b) + length bs <= capacity b)%nat ->
  BufferWriteAddrPort d b = Ok (put bs b).
Proof.
  intros Hw Hcap. unfold BufferWriteAddrPort, FreeLen. rewrite Hw. cbn [rbind].
  destruct (Nat.ltb_spec (capacity b - length (data b)) (length bs)); [lia|reflexivity].
Qed.

Lemma WriteRequest_mux (r : Request) (payload : list byte) :
  length (UUID r) = 16%nat ->
  Command r = CommandMux ->
  WriteRequest r payload = Ok (requestWire r [] ++ payload)
  /\ length (requestWire r []) = RequestLen r.
Proof.
  intros Hu Hc.
  assert (Hl : length (requestWire r []) = RequestLen r).
  { rewrite requestWire_length by exact Hu. unfold RequestLen. rewrite Hc. simpl. lia. }
  split; [|exact Hl].
  unfold WriteRequest. rewrite EncodeRequest_fits.
  - cbv zeta. rewrite Hc. cbn [Byte.eqb negb rbind].
    change (Byte.eqb CommandMux CommandMux) with true. cbn [negb rbind].
    rewrite Write_fits by buf_fits.
    reflexivity.
  - exact Hu.
  - cbn [NewSize data capacity length]. unfold RequestLen. lia.
Qed.

Lemma WriteRequest_addr (r : Request) (payload addr : list byte) :
  length (UUID r) = 16%nat ->
  Command r <> CommandMux ->
  WriteAddrPort (Destination r) = Ok addr ->
  length addr = AddrPortLen (Destination r) ->
  WriteRequest r payload = Ok (requestWire r addr ++ payload)
  /\ length (requestWire r addr) = RequestLen r.
Proof.
  intros Hu Hc Hw Hlen.
  assert (Hne : Byte.eqb (Command r) CommandMux = false).
  { destruct (Byte.eqb (Command r) CommandMux) eqn:E; [|reflexivity].
    apply Byte.byte_dec_bl in E. contradiction. }
  assert (Hl : length (requestWire r addr) = RequestLen r).
  { rewrite requestWire_length by exact Hu. unfold RequestLen.
    rewrite Hne, Hlen. simpl. lia. }
  split; [|exact Hl].
  pose proof (requestWire_length r [] Hu) as Hl0.
  unfold WriteRequest. rewrite EncodeRequest_fits.
  - cbv zeta. rewrite Hne. cbn [negb].
    rewrite (BufferWriteAddrPort_fits _ _ Hw).
    + cbn [rbind]. rewrite put_put.
      rewrite Write_fits.
      * cbn [rbind]. rewrite put_put. cbn [put data NewSize app].
        unfold requestWire. rewrite <- !app_assoc. reflexivity.
      * rewrite data_put, !length_app, Hl0, capacity_put.
        cbn [NewSize data capacity length]. unfold RequestLen. rewrite Hne. cbn [negb]. lia.
    + rewrite data_put, !length_app, Hl0, capacity_put.
      cbn [NewSize data capacity length]. unfold RequestLen. rewrite Hne. cbn [negb]. lia.
  - exact Hu.
  - cbn [NewSize data capacity length]. unfold RequestLen. lia.
Qed.

Lemma WriteRequest_failure (r : Request) (payload : list byte) :
  length (UUID r) = 16%nat ->
  Command r <> CommandMux ->
  (forall bs, WriteAddrPort (Destination r) <> Ok bs) ->
  forall out, WriteRequest r payload <> Ok out.
Proof.
  intros Hu Hc Hw out.
  assert (Hne : Byte.eqb (Command r) CommandMux = false).
  { destruct (Byte.eqb (Command r) CommandMux) eqn:E; [|reflexivity].
    apply Byte.byte_dec_bl in E. contradiction. }
  unfold WriteRequest. rewrite EncodeRequest_fits.
  - cbv zeta. rewrite Hne. cbn [negb]. unfold BufferWriteAddrPort.
    destruct (WriteAddrPort (Destination r)) as [bs|e|] eqn:E; cbn [rbind];
    try discriminate.
    exfalso. exact (Hw bs eq_refl).
  - exact Hu.
  - cbn [NewSize data capacity length]. unfold RequestLen. lia.
Qed.
End EncodeTheorems.

(** C1.  Length invariant of the encoder: whenever [WriteRequest] hands
    bytes to the writer, there are exactly [RequestLen r + len(payload)] of
    them, the size of the one buffer it allocated, and it does hand them
    over unless the address codec refuses the destination.  The request's
    identity has its 16 bytes and the address codec writes as many bytes as
    [AddrPortLen] announces. *)
Theorem WriteRequest_length `{AddressSerializer} (r : Request) (payload : list byte) :
  length (UUID r) = 16%nat ->
  WritesAnnouncedLen (Destination r) ->
  (forall out, WriteRequest r payload = Ok out ->
     length out = (RequestLen r + length payload)%nat)
  /\ ((Command r = CommandMux \/ exists bs, WriteAddrPort (Destination r) = Ok bs) ->
      exists out, WriteRequest r payload = Ok out).
Proof.
  intros Hu Hlen.
  destruct (Byte.byte_eq_dec (Command r) CommandMux) as [Hc|Hc].
  - destruct (WriteRequest_mux r payload Hu Hc) as [Hw Hl].
    split.
    + intros out Ho. rewrite Hw in Ho.
      assert (Eo : out = requestWire r [] ++ payload) by congruence.
      rewrite Eo, length_app, Hl. reflexivity.
    + intros _. eexists. exact Hw.
  - destruct (WriteAddrPort (Destination r)) as [bs|e|] eqn:E.
    + destruct (WriteRequest_addr r payload Hu Hc E (Hlen bs E)) as [Hw Hl].
      split.
      * intros out Ho. rewrite Hw in Ho.
        assert (Eo : out = requestWire r bs ++ payload) by congruence.
        rewrite Eo, length_app, Hl. reflexivity.
      * intros _. eexists. exact Hw.
    + split.
      * intros out Ho. exfalso. revert Ho. apply WriteRequest_failure; try assumption.
        intros bs. rewrite E. discriminate.
      * intros [Hm|[bs Hb]]; [contradiction|discriminate].
    + split.
      * intros out Ho. exfalso. revert Ho. apply WriteRequest_failure; try assumption.
        intros bs. rewrite E. discriminate.
      * intros [Hm|[bs Hb]]; [contradiction|discriminate].
Qed.

(* ================================================================== *)
(** * Lemmas: the packet request, readers and the response *)

Lemma Uint16_PutUint16 (v : Z) : 0 <= v < 2 ^ 16 -> Uint16 (PutUint16 v) = v.
Proof.
  intros Hv. unfold Uint16, PutUint16. rewrite !byte_to_of_Z.
  change 256 with (2 ^ 8).
  apply Z.bits_inj'. intros n Hn. rewrite Z.lor_spec.
  destruct (Z.lt_ge_cases n 8).
  - rewrite Z.shiftl_spec_low by lia. rewrite Z.mod_pow2_bits_low by lia. reflexivity.
  - rewrite Z.shiftl_spec by lia. rewrite (Z.mod_pow2_bits_high v 8 n) by lia.
    rewrite orb_false_r.
    destruct (Z.lt_ge_cases n 16).
    + rewrite Z.mod_pow2_bits_low by lia. rewrite Z.shiftr_spec by lia.
      f_equal. lia.
    + rewrite Z.mod_pow2_bits_high by lia. symmetry.
      apply (@testbit_small v 16 n); lia.
Qed.

Lemma byte_eqb_refl (b : byte) : Byte.eqb b b = true.
Proof. apply Byte.byte_dec_lb. reflexivity. Qed.

Lemma byte_eqb_neq (a b : byte) : a <> b -> Byte.eqb a b = false.
Proof.
  intros Hn. destruct (Byte.eqb a b) eqn:E; [|reflexivity].
  apply Byte.byte_dec_bl in E. contradiction.
Qed.

Ltac packet_step :=
  first [ buf_step
        | match goal with
          | Hw : WriteAddrPort _ = Ok _ |- _ =>
              rewrite (BufferWriteAddrPort_fits _ _ Hw) by buf_fits;
              cbn [rbind]; rewrite ?put_put
          end ].

(** C10.  The packet-request encoder writes the version, the identity, an
    addon-length byte of 0 with no optional-fields block after it, the UDP
    command byte whatever [Command r] is, and the destination; the request's
    flow and obfuscated destination do not reach the wire.  A non-empty
    payload follows its length, written as a big-endian [uint16] (the length
    itself for a payload below 65536 bytes). *)
Theorem WritePacketRequest_wire `{AddressSerializer}
  (r : Request) (payload addr : list byte) :
  length (UUID r) = 16%nat ->
  WriteAddrPort (Destination r) = Ok addr ->
  length addr = AddrPortLen (Destination r) ->
  WritePacketRequest r payload
  = Ok ([Version] ++ UUID r ++ [x00] ++ [CommandUDP] ++ addr
        ++ match payload with
           | [] => []
           | _ => PutUint16 (uint16 (len payload)) ++ payload
           end)
  /\ (len payload < 2 ^ 16 ->
      Uint16 (PutUint16 (uint16 (len payload))) = len payload).
Proof.
  intros Hu Hw Hlen. split.
  - unfold WritePacketRequest. cbv zeta.
    change (byte_of_Z (Z.of_nat 0)) with x00.
    change (0 <? 0)%nat with false. cbv iota.
    assert (Hp : length (PutUint16 (uint16 (len payload))) = 2%nat) by reflexivity.
    destruct payload as [|p0 ps].
    + cbn [length Nat.ltb Nat.leb]. repeat packet_step.
      cbn [put data NewSize app]. rewrite <- !app_assoc, app_nil_r. reflexivity.
    + destruct (Nat.ltb_spec 0 (length (p0 :: ps))) as [_|Hz];
        [|cbn [length] in Hz; lia].
      set (pl := p0 :: ps) in *. repeat packet_step.
      cbn [put data NewSize app]. rewrite <- !app_assoc. reflexivity.
  - intros Hlt. assert (Hl : 0 <= len payload) by (unfold len; lia).
    unfold uint16. rewrite Z.mod_small by lia. apply Uint16_PutUint16. lia.
Qed.

Lemma skipn_app_exact {A} (p rest : list A) : skipn (length p) (p ++ rest) = rest.
Proof. induction p as [|x p IH]; simpl; [reflexivity|exact IH]. Qed.

Lemma firstn_app_exact {A} (p rest : list A) : firstn (length p) (p ++ rest) = p.
Proof. induction p as [|x p IH]; simpl; [reflexivity|rewrite IH; reflexivity]. Qed.

Lemma len_app {A} (p q : list A) : len (p ++ q) = len p + len q.
Proof. unfold len. rewrite length_app. lia. Qed.

Lemma len_nonneg {A} (p : list A) : 0 <= len p.
Proof. unfold len. lia. Qed.

Lemma SkipN_app (p rest : list byte) : SkipN (len p) (p ++ rest) = Ok rest.
Proof.
  unfold SkipN. rewrite len_app.
  destruct (Z.leb_spec (len p) (len p + len rest)) as [_|Hgt].
  - unfold len. rewrite Nat2Z.id, skipn_app_exact. reflexivity.
  - pose proof (len_nonneg rest). lia.
Qed.

Lemma ReadFull_app (p rest : list byte) : ReadFull (len p) (p ++ rest) = Ok (p, rest).
Proof.
  unfold ReadFull. rewrite len_app.
  destruct (Z.leb_spec (len p) (len p + len rest)) as [_|Hgt].
  - unfold len. rewrite Nat2Z.id, skipn_app_exact, firstn_app_exact. reflexivity.
  - pose proof (len_nonneg rest). lia.
Qed.

Lemma ReadBytes_app (p rest : list byte) : ReadBytes (len p) (p ++ rest) = Ok (p, rest).
Proof.
  unfold ReadBytes. pose proof (len_nonneg p).
  destruct (Z.ltb_spec (len p) 0); [lia|]. apply ReadFull_app.
Qed.

(** C8.  A response whose version byte matches and whose length byte is
    [N > 0] is decoded successfully whatever the [N] trailing bytes are;
    the decoder consumes those [2 + N] bytes and leaves the stream at the
    byte after them.  A version byte other than [Version] fails the
    decode. *)
Theorem ReadResponse_skips_trailing (n : byte) (trailing rest : list byte) :
  0 < byte_to_Z n ->
  len trailing = byte_to_Z n ->
  ReadResponse (Version :: n :: trailing ++ rest) = Ok rest
  /\ len (Version :: n :: trailing) = 2 + byte_to_Z n
  /\ (forall (v : byte) (stream : list byte),
        v <> Version -> ReadResponse (v :: stream) = Err (UnknownVersion v)).
Proof.
  intros Hpos Hlen. split; [|split].
  - unfold ReadResponse. cbn [ReadByte rbind].
    rewrite byte_eqb_refl. cbn [negb].
    destruct (Z.ltb_spec 0 (byte_to_Z n)); [|lia].
    rewrite <- Hlen. apply SkipN_app.
  - unfold len in *. cbn [length]. lia.
  - intros v stream Hv. unfold ReadResponse. cbn [ReadByte rbind].
    rewrite byte_eqb_neq by exact Hv. reflexivity.
Qed.

(* ================================================================== *)
(** * Lemmas: the round trip *)

Lemma int_of_uint64_len {A} (l : list A) :
  len l < 2 ^ 63 -> int_of_uint64 (uint64 (len l)) = len l.
Proof.
  intros Hl. pose proof (len_nonneg l).
  rewrite uint64_small by lia. unfold int_of_uint64.
  destruct (Z.ltb_spec (len l) (2 ^ 63)); [reflexivity|lia].
Qed.

Lemma RequestAddonLen_pos (r : Request) :
  Flow r <> [] \/ VPPLDestAddr r <> None ->
  (2 + length (Flow r)
   + match VPPLDestAddr r with Some dest => length dest | None => 0 end
   < RequestAddonLen r)%nat.
Proof.
  intros Hne. unfold RequestAddonLen.
  assert (Hv : forall x, (1 <= UVariantLen x)%nat).
  { intros x. unfold UVariantLen.
    repeat match goal with |- context [?a <? ?b] => destruct (a <? b) end; lia. }
  pose proof (Hv (uint64 (len (Flow r)))).
  destruct (Flow r) as [|f fl]; destruct (VPPLDestAddr r) as [dest|];
    cbn [isEmpty isNil negb orb length];
    try (pose proof (Hv (uint64 (len dest))));
    change (UVariantLen 0) with 1%nat;
    first [lia | destruct Hne; congruence].
Qed.

Lemma readAddons_addonsWire (r : Request) :
  Flow r <> [] \/ VPPLDestAddr r <> None ->
  Z.of_nat (RequestAddonLen r) < 2 ^ 63 ->
  readAddons (addonsWire r)
  = Ok {| AddonsFlow := Flow r;
          VPPLDestination := VPPLDestAddr (decodedImage r) |}.
Proof.
  intros Hne Hint. pose proof (RequestAddonLen_pos r Hne) as Hpos.
  unfold addonsWire.
  destruct (Nat.ltb_spec 0 (RequestAddonLen r)); [|lia].
  unfold readAddons. cbn [app ReadByte rbind Byte.eqb].
  change (Byte.eqb x0a x0a) with true. cbn [negb].
  rewrite ReadUVariant_PutUvarint by apply uint64_range.
  assert (Hfl : len (Flow r) < 2 ^ 63) by (unfold len; lia).
  rewrite int_of_uint64_len by exact Hfl.
  rewrite ReadBytes_app. cbn [rbind app ReadByte].
  change (Byte.eqb x12 x12) with true. cbn [negb].
  unfold decodedImage; cbn [VPPLDestAddr].
  destruct (VPPLDestAddr r) as [dest|].
  - rewrite <- (app_nil_r (PutUvarint (uint64 (len dest)) ++ dest)), <- app_assoc.
    rewrite ReadUVariant_PutUvarint by apply uint64_range. cbn [rbind].
    assert (Hdl : len dest < 2 ^ 63) by (unfold len; lia).
    rewrite int_of_uint64_len by exact Hdl.
    rewrite ReadBytes_app. reflexivity.
  - reflexivity.
Qed.

Section RoundTrip.
Context `{AddressSerializer}.

Lemma ReadRequest_requestWire (r : Request) (addr payload : list byte) :
  length (UUID r) = 16%nat ->
  Flow r <> [] \/ VPPLDestAddr r <> None ->
  Z.of_nat (RequestAddonLen r) < 2 ^ 63 ->
  ReadRequest (requestWire r addr ++ payload)
  = ('(destination, r6) <-
       (if negb (Byte.eqb (Command r) CommandMux)
        then wrap CantSerializeAddress (ReadAddrPort (addr ++ payload))
        else Ok (zeroSocksaddr, addr ++ payload)) ;;
     Ok ({| UUID := UUID r; Command := Command r; Destination := destination;
            Flow := Flow r; VPPLDestAddr := VPPLDestAddr (decodedImage r) |}, r6)).
Proof.
  intros Hu Hne Hint. pose proof (RequestAddonLen_pos r Hne) as Hpos.
  unfold ReadRequest, requestWire.
  cbn [app ReadByte wrap rbind].
  change (Byte.eqb Version Version) with true. cbn [negb].
  rewrite <- !app_assoc.
  assert (H16 : 16 = len (UUID r)) by (unfold len; rewrite Hu; reflexivity).
  rewrite H16, ReadFull_app. cbn [wrap rbind].
  rewrite ReadUVariant_PutUvarint by apply uint64_range. cbn [wrap rbind].
  rewrite uint64_small by lia.
  destruct (Z.ltb_spec 0 (Z.of_nat (RequestAddonLen r))); [|lia].
  unfold int_of_uint64.
  destruct (Z.ltb_spec (Z.of_nat (RequestAddonLen r)) (2 ^ 63)); [|lia].
  rewrite <- (addonsWire_length r) at 1. fold (len (addonsWire r)).
  rewrite ReadBytes_app. cbn [wrap rbind].
  rewrite readAddons_addonsWire by assumption.
  cbn [wrap rbind AddonsFlow VPPLDestination].
  cbn [app ReadByte wrap rbind]. reflexivity.
Qed.
End RoundTrip.

(** C2, as the code has it.  For a request with a non-empty flow or a
    non-nil obfuscated destination, decoding what [WriteRequest] wrote gives
    back the identity, command, destination and flow, the bytes of the
    obfuscated destination, and leaves exactly the payload on the stream;
    a nil obfuscated destination comes back as the empty non-nil slice
    ([decodedImage]).  The request is well formed (a 16-byte identity, no
    destination under MUX, lengths within [int]) and the address codec
    reads back what it writes. *)
Theorem ReadRequest_WriteRequest `{AddressSerializer}
  (r : Request) (payload out : list byte) :
  length (UUID r) = 16%nat ->
  Flow r <> [] \/ VPPLDestAddr r <> None ->
  Z.of_nat (RequestAddonLen r) < 2 ^ 63 ->
  (Command r = CommandMux -> Destination r = zeroSocksaddr) ->
  WritesAnnouncedLen (Destination r) ->
  ReadsBackWritten (Destination r) ->
  WriteRequest r payload = Ok out ->
  ReadRequest out = Ok (decodedImage r, payload).
Proof.
  intros Hu Hne Hint Hmux Hlen Hback Hw.
  destruct (Byte.byte_eq_dec (Command r) CommandMux) as [Hc|Hc].
  - destruct (WriteRequest_mux r payload Hu Hc) as [Hw' _].
    assert (Eo : out = requestWire r [] ++ payload) by congruence. subst out.
    rewrite ReadRequest_requestWire by assumption.
    rewrite Hc. change (Byte.eqb CommandMux CommandMux) with true. cbn [negb rbind app].
    unfold decodedImage. rewrite (Hmux Hc), Hc. reflexivity.
  - destruct (WriteAddrPort (Destination r)) as [bs|e|] eqn:E.
    + destruct (WriteRequest_addr r payload Hu Hc E (Hlen bs E)) as [Hw' _].
      assert (Eo : out = requestWire r bs ++ payload) by congruence. subst out.
      rewrite ReadRequest_requestWire by assumption.
      rewrite byte_eqb_neq by exact Hc. cbn [negb].
      rewrite (Hback bs payload E). reflexivity.
    + exfalso. revert Hw. apply WriteRequest_failure; try assumption.
      intros bs. rewrite E. discriminate.
    + exfalso. revert Hw. apply WriteRequest_failure; try assumption.
      intros bs. rewrite E. discriminate.
Qed.

(* ================================================================== *)
(** * Lemmas: the dial path *)

Section Dial.
Import Outbound.
Variable w : World.

(** Stream acquisition leaves the adapter as it is. *)
Lemma acquireStream_adapter (d : Socksaddr) (st : DialState) :
  adapter (snd (acquireStream w d st)) = adapter st.
Proof.
  unfold acquireStream, dbind, self, call, dret. cbn [fst snd adapter].
  destruct (transport (adapter st)) as [t|]; cbn [snd adapter]; [reflexivity|].
  destruct (dialer_DialContext w _ _) as [conn|e|]; cbn [snd adapter]; try reflexivity.
  destruct (tlsConfig (adapter st)); reflexivity.
Qed.

Lemma withClient_adapter {A} (k : Client -> DialM A) (st : DialState) :
  (forall c, adapter (snd (k c st)) = adapter st) ->
  adapter (snd (withClient k st)) = adapter st.
Proof.
  intros Hk. unfold withClient, dbind, self, panic.
  destruct (client (adapter st)); [apply Hk|reflexivity].
Qed.

Lemma vlessDialer_DialContext_adapter (n : string) (d : Socksaddr) (st : DialState) :
  adapter (snd (vlessDialer_DialContext w n d st)) = adapter st.
Proof.
  unfold vlessDialer_DialContext. unfold dbind at 1.
  pose proof (acquireStream_adapter d st) as Ha.
  destruct (acquireStream w d st) as [[conn|e|] st1]; cbn [snd] in *; try exact Ha.
  rewrite <- Ha. unfold dbind at 1. unfold self at 1. cbv beta iota.
  repeat match goal with
  | |- context [if ?c then _ else _] => destruct c
  end;
  try (apply withClient_adapter; intros c);
  unfold call, fail, dbind, dret; cbn [fst snd adapter]; try reflexivity.
  destruct (client_DialEarlyPacketConn w c conn SeqPacketMagicAddress); reflexivity.
Qed.

Lemma vlessDialer_ListenPacket_adapter (d : Socksaddr) (st : DialState) :
  adapter (snd (vlessDialer_ListenPacket w d st)) = adapter st.
Proof.
  unfold vlessDialer_ListenPacket.
  pose proof (acquireStream_adapter d st) as Ha.
  destruct (acquireStream w d st) as [[conn|e|] st1]; cbn [snd adapter] in *;
    try exact Ha.
  rewrite <- Ha. unfold dbind at 1. unfold self at 1. cbv beta iota.
  repeat match goal with
  | |- context [if ?c then _ else _] => destruct c
  end;
  try (apply withClient_adapter; intros c);
  unfold call, fail, dbind, dret; cbn [fst snd adapter]; try reflexivity.
  destruct (client_DialEarlyPacketConn w c conn SeqPacketMagicAddress); reflexivity.
Qed.

Lemma setOriginDest_same (h : VLESS) : setOriginDest (originDest h) h = h.
Proof. destruct h; reflexivity. Qed.

(** The VPPL block writes no field but [originDest], and nothing at all
    when the extension is off. *)
Lemma resolveVPPL_adapter (ctx : Context) (d : Socksaddr) (st : DialState) :
  adapter (snd (resolveVPPL w ctx d st))
  = setOriginDest (originDest (adapter (snd (resolveVPPL w ctx d st)))) (adapter st)
  /\ (Enabled (vppl (adapter st)) = false ->
      snd (resolveVPPL w ctx d st) = st).
Proof.
  unfold resolveVPPL, dbind, self, writeOriginDest, call, dret, fail, panic.
  cbv beta iota. cbn [adapter trace].
  destruct (Enabled (vppl (adapter st)));
    [|split; [symmetry; apply setOriginDest_same|reflexivity]].
  split; [|discriminate].
  destruct (Proxy (vppl (adapter st))); cbn [negb].
  - destruct ctx as [ic|]; [|symmetry; apply setOriginDest_same].
    destruct (nilLen (VPPLdestination ic) =? 0)%nat;
      [symmetry; apply setOriginDest_same|].
    reflexivity.
  - destruct (Key (vppl (adapter st))) as [k|]; [|reflexivity].
    destruct (rsa_EncryptPKCS1v15 w k (Socksaddr_String w d)); reflexivity.
Qed.
End Dial.

Lemma DialContext_adapter (w : Outbound.World) (ctx : Outbound.Context)
  (network : string) (destination : Socksaddr) (st : Outbound.DialState) :
  Outbound.adapter (snd (Outbound.DialContext w ctx network destination st))
  = Outbound.adapter (snd (Outbound.resolveVPPL w ctx destination st)).
Proof.
  unfold Outbound.DialContext. unfold Outbound.dbind at 1.
  destruct (Outbound.resolveVPPL w ctx destination st) as [[d|e|] st1];
    cbn [snd]; try reflexivity.
  unfold Outbound.dbind, Outbound.self. cbv beta iota.
  destruct (Outbound.multiplexDialer (Outbound.adapter st1)).
  - reflexivity.
  - apply vlessDialer_DialContext_adapter.
Qed.

Lemma ListenPacket_adapter (w : Outbound.World) (destination : Socksaddr)
  (st : Outbound.DialState) :
  Outbound.adapter (snd (Outbound.ListenPacket w destination st))
  = Outbound.adapter st.
Proof.
  unfold Outbound.ListenPacket, Outbound.dbind, Outbound.self. cbv beta iota.
  destruct (Outbound.multiplexDialer (Outbound.adapter st)).
  - reflexivity.
  - apply vlessDialer_ListenPacket_adapter.
Qed.

(** C9, as the code has it.  [DialContext] writes no field of the shared
    adapter but [originDest], and with the extension disabled it leaves
    the adapter unchanged; [ListenPacket] leaves it unchanged. *)
Theorem DialContext_writes_only_originDest (w : Outbound.World)
  (ctx : Outbound.Context) (network : string) (destination : Socksaddr)
  (st : Outbound.DialState) :
  let st' := snd (Outbound.DialContext w ctx network destination st) in
  Outbound.adapter st'
  = Outbound.setOriginDest (Outbound.originDest (Outbound.adapter st'))
      (Outbound.adapter st)
  /\ (Outbound.Enabled (Outbound.vppl (Outbound.adapter st)) = false ->
      Outbound.adapter st' = Outbound.adapter st)
  /\ Outbound.adapter (snd (Outbound.ListenPacket w destination st))
     = Outbound.adapter st.
Proof.
  cbv zeta. rewrite DialContext_adapter.
  destruct (resolveVPPL_adapter w ctx destination st) as [Hr Hoff].
  split; [exact Hr|]. split; [|apply ListenPacket_adapter].
  intros Hd. rewrite (Hoff Hd). reflexivity.
Qed.

(** C7.  In RelayPassthrough mode (enabled, proxy), a dial without a blob
    makes no call to any collaborator and leaves the adapter as it was, but
    what it returns depends on how the blob is missing: with an inbound
    context whose [VPPLdestination] is nil or empty it fails with the
    missing-payload error; with no inbound context at all
    ([adapter.ContextFrom] gives nil) the field access dereferences nil and
    the dial panics instead of returning that error. *)
Theorem DialContext_passthrough_without_blob (w : Outbound.World)
  (network : string) (destination : Socksaddr) (st : Outbound.DialState) :
  Outbound.Enabled (Outbound.vppl (Outbound.adapter st)) = true ->
  Outbound.Proxy (Outbound.vppl (Outbound.adapter st)) = true ->
  (forall inbCtx : Outbound.InboundContext,
      Outbound.nilLen (Outbound.VPPLdestination inbCtx) = 0%nat ->
      Outbound.DialContext w (Some inbCtx) network destination st
      = (Err VPPLDestinationEmpty, st))
  /\ Outbound.DialContext w None network destination st = (Panic, st).
Proof.
  intros He Hp.
  unfold Outbound.DialContext, Outbound.resolveVPPL, Outbound.dbind, Outbound.self,
    Outbound.fail, Outbound.panic.
  cbv beta iota. rewrite He, Hp. split.
  - intros inbCtx Hn. rewrite Hn. reflexivity.
  - reflexivity.
Qed.

Ltac dial_unfold :=
  unfold Outbound.DialContext, Outbound.ListenPacket,
    Outbound.vlessDialer_DialContext, Outbound.vlessDialer_ListenPacket,
    Outbound.resolveVPPL, Outbound.acquireStream, Outbound.withClient,
    Outbound.dbind, Outbound.self, Outbound.call, Outbound.dret, Outbound.fail,
    Outbound.panic, Outbound.writeOriginDest, Outbound.start;
  cbn [Outbound.adapter Outbound.trace fst snd app].

(** Case analysis on the innermost scrutinee found under [t]. *)
Ltac case_under t :=
  lazymatch t with
  | context [match ?x with _ => _ end] => case_under x
  | _ => destruct t eqn:?
  end.

Ltac dial_case :=
  lazymatch goal with
  | |- context [match ?x with _ => _ end] => case_under x
  end;
  cbn [Outbound.adapter Outbound.trace fst snd app negb andb orb
       Outbound.setOriginDest Outbound.originDest Outbound.client
       Outbound.transport Outbound.tlsConfig Outbound.multiplexDialer
       Outbound.vppl Outbound.xudp Outbound.packetAddr Outbound.serverAddr
       Outbound.dialer] in *.

(** C3, as the code has it.  In ClientEncrypt mode (enabled, not proxy), on
    a direct dial with a key under which the encryption of [D]'s string
    form succeeds, the dial goes on as the protocol dial towards the relay
    address with the ciphertext stored in [originDest]: the one physical
    connection is opened to the adapter's server address, whatever [D] is,
    and every TCP or XUDP handshake handed to the protocol client declares
    the relay address and carries the ciphertext. *)
Theorem DialContext_ClientEncrypt (w : Outbound.World) (ctx : Outbound.Context)
  (network : string) (D : Socksaddr) (h : Outbound.VLESS)
  (k : Outbound.PublicKey) (enc : list byte) :
  Outbound.Enabled (Outbound.vppl h) = true ->
  Outbound.Proxy (Outbound.vppl h) = false ->
  Outbound.multiplexDialer h = None ->
  Outbound.transport h = None ->
  Outbound.Key (Outbound.vppl h) = Some k ->
  Outbound.rsa_EncryptPKCS1v15 w k (Outbound.Socksaddr_String w D) = Ok enc ->
  let r := Outbound.DialContext w ctx network D (Outbound.start h) in
  r = Outbound.vlessDialer_DialContext w network (Outbound.Address (Outbound.vppl h))
        {| Outbound.adapter := Outbound.setOriginDest (Some enc) h;
           Outbound.trace := [Outbound.EvEncrypt (Outbound.Socksaddr_String w D)] |}
  /\ Outbound.physicalTargets (Outbound.trace (snd r)) = [Outbound.serverAddr h]
  /\ (forall conn d od,
        In (Outbound.EvDialEarlyConn conn d od) (Outbound.trace (snd r))
        \/ In (Outbound.EvDialEarlyXUDPPacketConn conn d od) (Outbound.trace (snd r)) ->
        d = Outbound.Address (Outbound.vppl h) /\ od = Some enc).
Proof.
  intros He Hp Hm Ht Hk Henc. cbv zeta.
  assert (E : Outbound.DialContext w ctx network D (Outbound.start h)
    = Outbound.vlessDialer_DialContext w network (Outbound.Address (Outbound.vppl h))
        {| Outbound.adapter := Outbound.setOriginDest (Some enc) h;
           Outbound.trace := [Outbound.EvEncrypt (Outbound.Socksaddr_String w D)] |}).
  { unfold Outbound.DialContext, Outbound.resolveVPPL, Outbound.dbind,
      Outbound.self, Outbound.writeOriginDest, Outbound.call, Outbound.dret,
      Outbound.start.
    cbn [Outbound.adapter Outbound.trace app].
    rewrite He, Hp. cbn [negb].
    cbn [Outbound.setOriginDest Outbound.vppl Outbound.adapter Outbound.trace app].
    rewrite Hk, Henc.
    cbn [Outbound.setOriginDest Outbound.multiplexDialer Outbound.adapter].
    rewrite Hm. reflexivity. }
  rewrite E. split; [reflexivity|].
  dial_unfold.
  cbn [Outbound.setOriginDest Outbound.transport Outbound.vppl Outbound.tlsConfig
       Outbound.serverAddr Outbound.dialer Outbound.originDest Outbound.client
       Outbound.xudp Outbound.packetAddr].
  rewrite Ht, He, Hp. cbn [andb].
  repeat dial_case;
    (split; [reflexivity|]);
    intros conn0 d od [Hin|Hin]; cbn [In] in Hin;
    repeat match goal with
    | H : _ \/ _ |- _ => destruct H
    | H : False |- _ => destruct H
    end; try discriminate;
    match goal with
    | H : _ = _ |- _ => injection H as <- <- <-; split; reflexivity
    end.
Qed.

Lemma acquireStream_negotiations (w : Outbound.World) (d : Socksaddr)
  (h : Outbound.VLESS) :
  Outbound.negotiations
    (Outbound.trace (snd (Outbound.acquireStream w d (Outbound.start h)))) = [].
Proof.
  dial_unfold. repeat dial_case; reflexivity.
Qed.

(** C4, as the code has it.  Under packetaddr framing (no xudp) a UDP dial
    to a domain name acquires its stream first: when that fails the dial
    returns the acquisition's failure, when it succeeds the dial fails with
    the unsupported-destination error; either way the protocol client is
    never called, in [DialContext] and in [ListenPacket] alike. *)
Theorem packetaddr_domain_rejected_after_acquisition (w : Outbound.World)
  (network : string) (D : Socksaddr) (h : Outbound.VLESS) :
  Outbound.NetworkName network = "udp"%string ->
  Outbound.xudp h = false ->
  Outbound.packetAddr h = true ->
  Outbound.Socksaddr_IsFqdn w D = true ->
  let a := Outbound.acquireStream w D (Outbound.start h) in
  let r := Outbound.vlessDialer_DialContext w network D (Outbound.start h) in
  let l := Outbound.vlessDialer_ListenPacket w D (Outbound.start h) in
  fst r = match fst a with
          | Ok _ => Err PacketaddrDomainUnsupported
          | Err e => Err e
          | Panic => Panic
          end
  /\ fst l = fst r
  /\ snd r = snd a
  /\ Outbound.negotiations (Outbound.trace (snd r)) = []
  /\ Outbound.negotiations (Outbound.trace (snd l)) = [].
Proof.
  intros Hn Hx Hpa Hf. cbv zeta.
  pose proof (acquireStream_negotiations w D h) as Hneg.
  pose proof (acquireStream_adapter w D (Outbound.start h)) as Had.
  unfold Outbound.vlessDialer_DialContext, Outbound.vlessDialer_ListenPacket,
    Outbound.dbind.
  destruct (Outbound.acquireStream w D (Outbound.start h)) as [[conn|e|] st1];
    cbn [fst snd] in *.
  - unfold Outbound.self. cbv beta iota.
    rewrite Had. cbn [Outbound.start Outbound.adapter].
    rewrite Hn, Hx, Hpa, Hf. cbn [String.eqb Ascii.eqb Bool.eqb andb].
    unfold Outbound.fail. cbn [fst snd]. repeat split; try reflexivity; try assumption.
  - cbn [fst snd Outbound.trace]. repeat split; try reflexivity; try assumption.
    unfold Outbound.negotiations in *. rewrite flat_map_app, Hneg. reflexivity.
  - repeat split; first [reflexivity|assumption].
Qed.

(** C6, as the code has it.  With the extension enabled and not in proxy
    mode, an empty key makes construction fail (with the no-public-key
    error once the dialer is built); in proxy mode the key plays no part in
    the construction. *)
Theorem NewVLESS_key_requirement (w : Outbound.World) (tag : string)
  (o : Options.VLESSOutboundOptions) :
  (Options.Enabled (Options.Base (Options.VPPL o)) = true ->
   Options.Proxy (Options.Base (Options.VPPL o)) = false ->
   Options.Key (Options.Base (Options.VPPL o)) = ""%string ->
   (forall h, Outbound.NewVLESS w tag o <> Ok h)
   /\ (forall d, Outbound.dialer_New w (Options.Dialer o) = Ok d ->
                 Outbound.NewVLESS w tag o = Err VPPLNoPublicKey))
  /\ (Options.Proxy (Options.Base (Options.VPPL o)) = true ->
      forall key, Outbound.NewVLESS w tag (Options.withKey key o)
                  = Outbound.NewVLESS w tag o).
Proof.
  split.
  - intros He Hp Hk.
    assert (Hb : Outbound.buildVPPL w (Options.VPPL o) = Err VPPLNoPublicKey).
    { unfold Outbound.buildVPPL. rewrite He, Hp, Hk. reflexivity. }
    split.
    + intros h. unfold Outbound.NewVLESS.
      destruct (Outbound.dialer_New w (Options.Dialer o)); cbn [rbind]; try discriminate.
      rewrite Hb. discriminate.
    + intros d Hd. unfold Outbound.NewVLESS. rewrite Hd. cbn [rbind].
      rewrite Hb. reflexivity.
  - intros Hp key.
    assert (Hb : Outbound.buildVPPL w (Options.VPPL (Options.withKey key o))
                 = Outbound.buildVPPL w (Options.VPPL o)).
    { unfold Outbound.buildVPPL, Options.withKey.
      cbn [Options.VPPL Options.Base Options.Enabled Options.Proxy Options.Key
           Options.Host Options.Port].
      rewrite Hp. reflexivity. }
    unfold Outbound.NewVLESS. rewrite Hb. reflexivity.
Qed.

(** X23.  What [NewVLESS] guarantees of a ClientEncrypt adapter: no transport,
    a parsed key, the relay address and the server address of the options. *)
Lemma NewVLESS_ClientEncrypt_adapter (w : Outbound.World) (tag : string)
  (o : Options.VLESSOutboundOptions) (h : Outbound.VLESS) :
  Outbound.NewVLESS w tag o = Ok h ->
  Outbound.Enabled (Outbound.vppl h) = true ->
  Outbound.Proxy (Outbound.vppl h) = false ->
  Outbound.transport h = None
  /\ (exists k, Outbound.Key (Outbound.vppl h) = Some k)
  /\ Outbound.Address (Outbound.vppl h)
     = Outbound.ParseSocksaddrHostPort w (Options.Host (Options.VPPL o))
         (uint16 (Options.Port (Options.VPPL o)))
  /\ Outbound.serverAddr h
     = Outbound.ParseSocksaddrHostPort w
         (Options.Server (Options.ServerOptions o))
         (Options.ServerPort (Options.ServerOptions o))
  /\ Outbound.originDest h = None.
Proof.
  unfold Outbound.NewVLESS, Outbound.buildVPPL, Outbound.packetEncoding,
    rbind, wrap.
  intros Hnew He Hp.
  repeat (lazymatch type of Hnew with
          | context [match ?x with _ => _ end] => case_under x
          end; try discriminate Hnew);
  injection Hnew as <-;
  cbn in He, Hp |- *; try discriminate;
  try (match goal with
       | H : negb _ = false |- _ => rewrite Hp in H; discriminate H
       end);
  repeat split; try reflexivity; eexists; reflexivity.
Qed.

(* ================================================================== *)
(** * The model on the concrete inputs *)

Example WriteRequest_flowOnly :
  @WriteRequest vmessAddressSerializer Example.flowOnly Example.payload
  = Ok ([x00] ++ repeat x00 16 ++ [x14]
        ++ [x0a; x10] ++ list_byte_of_string "xtls-rprx-vision" ++ [x12; x00]
        ++ [x01] ++ [x01; xbb; x01; x0a; x00; x00; x01]
        ++ list_byte_of_string "GET /").
Proof. vm_compute. reflexivity. Qed.

Example ReadRequest_flowOnly :
  @ReadRequest vmessAddressSerializer
    ([x00] ++ repeat x00 16 ++ [x14]
     ++ [x0a; x10] ++ list_byte_of_string "xtls-rprx-vision" ++ [x12; x00]
     ++ [x01] ++ [x01; xbb; x01; x0a; x00; x00; x01]
     ++ list_byte_of_string "GET /")
  = Ok ({| UUID := repeat x00 16; Command := CommandTCP;
           Destination := Example.server;
           Flow := list_byte_of_string "xtls-rprx-vision";
           VPPLDestAddr := Some [] |}, Example.payload).
Proof. vm_compute. reflexivity. Qed.

(** The serializer of the examples is lawful on IPv4 addresses. *)
Lemma vmess_WritesAnnouncedLen_ipv4 (d : Socksaddr) :
  length (Addr d) = 4%nat -> @WritesAnnouncedLen vmessAddressSerializer d.
Proof.
  intros Ha bs Hbs. cbn [WriteAddrPort AddrPortLen vmessAddressSerializer] in *.
  unfold vmessWriteAddrPort, vmessAddrPortLen in *. rewrite Ha in *.
  cbn [Nat.eqb] in *.
  assert (E : bs = PutUint16 (Port d) ++ [x01] ++ Addr d) by congruence.
  rewrite E, !length_app, Ha. reflexivity.
Qed.

Lemma vmess_ReadsBackWritten_ipv4 (d : Socksaddr) :
  length (Addr d) = 4%nat -> Fqdn d = [] -> 0 <= Port d < 2 ^ 16 ->
  @ReadsBackWritten vmessAddressSerializer d.
Proof.
  intros Ha Hf Hp bs rest Hbs.
  cbn [WriteAddrPort ReadAddrPort vmessAddressSerializer] in *.
  unfold vmessWriteAddrPort in Hbs. rewrite Ha in Hbs. cbn [Nat.eqb] in Hbs.
  assert (E : bs = PutUint16 (Port d) ++ [x01] ++ Addr d) by congruence.
  rewrite E. unfold vmessReadAddrPort.
  rewrite <- !app_assoc.
  change 2 with (len (PutUint16 (Port d))). rewrite ReadFull_app.
  cbn [rbind app ReadByte].
  change (Byte.eqb x01 x01) with true. cbv iota.
  assert (H4 : 4 = len (Addr d)) by (unfold len; rewrite Ha; reflexivity).
  rewrite H4, ReadFull_app. cbn [rbind].
  rewrite Uint16_PutUint16 by exact Hp.
  destruct d as [a p f]. cbn [Addr Port Fqdn] in *. subst f. reflexivity.
Qed.

(** C2 as stated fails on a request with a flow and a nil obfuscated
    destination: what is decoded differs from what was encoded. *)
Lemma ReadRequest_WriteRequest_loses_nil :
  Flow Example.flowOnly <> []
  /\ ~ (forall out,
          @WriteRequest vmessAddressSerializer Example.flowOnly Example.payload = Ok out ->
          @ReadRequest vmessAddressSerializer out
          = Ok (Example.flowOnly, Example.payload)).
Proof.
  split; [discriminate|].
  intros Hrt. specialize (Hrt _ WriteRequest_flowOnly).
  rewrite ReadRequest_flowOnly in Hrt. discriminate Hrt.
Qed.

(** The round trip of C2 on the anchored request. *)
Lemma ReadRequest_WriteRequest_witness :
  @ReadRequest vmessAddressSerializer
    (requestWire Example.anchored [x20; xfb; x01; x0a; x00; x00; x02] ++ Example.payload)
  = Ok (decodedImage Example.anchored, Example.payload).
Proof.
  apply (@ReadRequest_WriteRequest vmessAddressSerializer Example.anchored Example.payload).
  - reflexivity.
  - right. discriminate.
  - vm_compute. reflexivity.
  - discriminate.
  - apply vmess_WritesAnnouncedLen_ipv4. reflexivity.
  - apply vmess_ReadsBackWritten_ipv4; [reflexivity|reflexivity|].
    vm_compute. split; [discriminate|reflexivity].
  - vm_compute. reflexivity.
Defined.

(** The length invariant of C1 on the anchored request. *)
Lemma WriteRequest_length_witness :
  (forall out,
     @WriteRequest vmessAddressSerializer Example.anchored Example.payload = Ok out ->
     length out = (@RequestLen vmessAddressSerializer Example.anchored
                   + length Example.payload)%nat)
  /\ ((Command Example.anchored = CommandMux
       \/ exists bs, @WriteAddrPort vmessAddressSerializer
                       (Destination Example.anchored) = Ok bs) ->
      exists out,
        @WriteRequest vmessAddressSerializer Example.anchored Example.payload = Ok out).
Proof.
  apply (@WriteRequest_length vmessAddressSerializer Example.anchored Example.payload).
  - reflexivity.
  - apply vmess_WritesAnnouncedLen_ipv4. reflexivity.
Defined.

(** The packet request of C10 for the anchored request, whose command is
    TCP. *)
Lemma WritePacketRequest_wire_witness :
  @WritePacketRequest vmessAddressSerializer Example.anchored Example.payload
  = Ok ([Version] ++ UUID Example.anchored ++ [x00] ++ [CommandUDP]
        ++ [x20; xfb; x01; x0a; x00; x00; x02]
        ++ PutUint16 (uint16 (len Example.payload)) ++ Example.payload)
  /\ (len Example.payload < 2 ^ 16 ->
      Uint16 (PutUint16 (uint16 (len Example.payload))) = len Example.payload).
Proof.
  apply (@WritePacketRequest_wire vmessAddressSerializer Example.anchored
           Example.payload [x20; xfb; x01; x0a; x00; x00; x02]).
  - reflexivity.
  - vm_compute. reflexivity.
  - reflexivity.
Defined.

(** The response of C8 with three trailing bytes. *)
Lemma ReadResponse_skips_trailing_witness :
  ReadResponse (Version :: x03 :: [xde; xad; x00] ++ Example.payload)
  = Ok Example.payload
  /\ len (Version :: x03 :: [xde; xad; x00]) = 2 + byte_to_Z x03
  /\ (forall (v : byte) (stream : list byte),
        v <> Version -> ReadResponse (v :: stream) = Err (UnknownVersion v)).
Proof.
  apply (@ReadResponse_skips_trailing x03 [xde; xad; x00] Example.payload).
  - reflexivity.
  - reflexivity.
Defined.

(** C3 as stated fails: the ClientEncrypt adapter of the examples opens
    its connection to the server address, which is not the relay address. *)
Lemma ClientEncrypt_dials_server_not_relay :
  let r := Outbound.DialContext Example.world None "tcp" Example.target
             (Outbound.start Example.clientEncrypt) in
  Outbound.physicalTargets (Outbound.trace (snd r)) = [Example.server]
  /\ ~ Forall (fun t => t = Outbound.Address (Outbound.vppl Example.clientEncrypt)
                        /\ t <> Example.target)
         (Outbound.physicalTargets (Outbound.trace (snd r))).
Proof.
  cbv zeta. split; [vm_compute; reflexivity|].
  intros Hall.
  assert (E : Outbound.physicalTargets
                (Outbound.trace
                   (snd (Outbound.DialContext Example.world None "tcp" Example.target
                           (Outbound.start Example.clientEncrypt))))
              = [Example.server]) by (vm_compute; reflexivity).
  rewrite E in Hall. inversion Hall as [|t ts [Hrelay _] _]. discriminate Hrelay.
Qed.

(** The dial of C3 on the ClientEncrypt adapter of the examples. *)
Lemma DialContext_ClientEncrypt_witness :
  let r := Outbound.DialContext Example.world None "tcp" Example.target
             (Outbound.start Example.clientEncrypt) in
  r = Outbound.vlessDialer_DialContext Example.world "tcp" Example.relay
        {| Outbound.adapter :=
             Outbound.setOriginDest (Some Example.sealedTarget)
               Example.clientEncrypt;
           Outbound.trace :=
             [Outbound.EvEncrypt (Outbound.Socksaddr_String Example.world Example.target)] |}
  /\ Outbound.physicalTargets (Outbound.trace (snd r)) = [Example.server]
  /\ (forall conn d od,
        In (Outbound.EvDialEarlyConn conn d od) (Outbound.trace (snd r))
        \/ In (Outbound.EvDialEarlyXUDPPacketConn conn d od) (Outbound.trace (snd r)) ->
        d = Example.relay /\ od = Some Example.sealedTarget).
Proof.
  apply (@DialContext_ClientEncrypt Example.world None "tcp" Example.target
           Example.clientEncrypt (Outbound.rsaPublicKey 0) Example.sealedTarget);
    reflexivity.
Defined.

(** The TCP dial of the example, call by call. *)
Example DialContext_ClientEncrypt_trace :
  Outbound.trace
    (snd (Outbound.DialContext Example.world None "tcp" Example.target
            (Outbound.start Example.clientEncrypt)))
  = [Outbound.EvEncrypt (Outbound.Socksaddr_String Example.world Example.target);
     Outbound.EvDial Example.server;
     Outbound.EvDialEarlyConn (Outbound.connHandle 1) Example.relay
       (Some Example.sealedTarget)].
Proof. vm_compute. reflexivity. Qed.

(** C4 as stated fails: the packetaddr rejection comes after the dial of
    the server. *)
Lemma packetaddr_rejection_follows_dial :
  let r := Outbound.DialContext Example.world None "udp" Example.target
             (Outbound.start Example.packetaddr) in
  fst r = Err PacketaddrDomainUnsupported
  /\ Outbound.networkIO (Outbound.trace (snd r)) = [Outbound.EvDial Example.server]
  /\ Outbound.networkIO (Outbound.trace (snd r)) <> [].
Proof.
  cbv zeta. split; [vm_compute; reflexivity|].
  assert (E : Outbound.networkIO
                (Outbound.trace
                   (snd (Outbound.DialContext Example.world None "udp" Example.target
                           (Outbound.start Example.packetaddr))))
              = [Outbound.EvDial Example.server]) by (vm_compute; reflexivity).
  rewrite E. split; [reflexivity|discriminate].
Qed.

(** The rejection of C4 on the packetaddr adapter of the examples. *)
Lemma packetaddr_domain_rejected_after_acquisition_witness :
  let a := Outbound.acquireStream Example.world Example.target
             (Outbound.start Example.packetaddr) in
  let r := Outbound.vlessDialer_DialContext Example.world "udp" Example.target
             (Outbound.start Example.packetaddr) in
  let l := Outbound.vlessDialer_ListenPacket Example.world Example.target
             (Outbound.start Example.packetaddr) in
  fst r = match fst a with
          | Ok _ => Err PacketaddrDomainUnsupported
          | Err e => Err e
          | Panic => Panic
          end
  /\ fst l = fst r
  /\ snd r = snd a
  /\ Outbound.negotiations (Outbound.trace (snd r)) = []
  /\ Outbound.negotiations (Outbound.trace (snd l)) = [].
Proof.
  apply (@packetaddr_domain_rejected_after_acquisition Example.world "udp"
           Example.target Example.packetaddr); reflexivity.
Defined.

(** C5 fails on the code.  The dial of the server succeeds with stream 1,
    the packetaddr rejection then returns its error, and the trace ends
    there: the acquired stream is never closed, neither by [DialContext]
    nor by [ListenPacket]. *)
Lemma packetaddr_rejection_leaves_stream_open :
  let r := Outbound.DialContext Example.world None "udp" Example.target
             (Outbound.start Example.packetaddr) in
  let l := Outbound.ListenPacket Example.world Example.target
             (Outbound.start Example.packetaddr) in
  Outbound.dialer_DialContext Example.world (Outbound.dialer Example.packetaddr)
    Example.server = Ok (Outbound.connHandle 1)
  /\ fst r = Err PacketaddrDomainUnsupported
  /\ Outbound.trace (snd r) = [Outbound.EvDial Example.server]
  /\ Outbound.closed (Outbound.trace (snd r)) = []
  /\ fst l = Err PacketaddrDomainUnsupported
  /\ Outbound.trace (snd l) = [Outbound.EvDial Example.server]
  /\ Outbound.closed (Outbound.trace (snd l)) = [].
Proof. vm_compute. repeat split; reflexivity. Qed.

(** C6 as stated fails: with a key and an empty relay host, construction
    succeeds. *)
Lemma NewVLESS_accepts_empty_relay :
  Options.Enabled (Options.Base (Options.VPPL Example.optionsNoRelay)) = true
  /\ Options.Proxy (Options.Base (Options.VPPL Example.optionsNoRelay)) = false
  /\ Options.Host (Options.VPPL Example.optionsNoRelay) = ""%string
  /\ exists h, Outbound.NewVLESS Example.world "vless-out" Example.optionsNoRelay = Ok h.
Proof.
  repeat split. eexists. vm_compute. reflexivity.
Qed.

(** The key requirement of C6 on the options of the examples: an empty key
    is refused in ClientEncrypt mode and accepted in proxy mode. *)
Lemma NewVLESS_key_requirement_witness :
  Outbound.NewVLESS Example.world "vless-out" (Example.optionsWith "" false)
  = Err VPPLNoPublicKey
  /\ Outbound.NewVLESS Example.world "vless-out"
       (Options.withKey "" (Example.optionsWith "MIIB" true))
     = Outbound.NewVLESS Example.world "vless-out" (Example.optionsWith "MIIB" true)
  /\ exists h, Outbound.NewVLESS Example.world "vless-out" (Example.optionsWith "" true)
               = Ok h.
Proof.
  split; [|split].
  - apply (proj1 (@NewVLESS_key_requirement Example.world "vless-out"
                    (Example.optionsWith "" false)) eq_refl eq_refl eq_refl
             : _ /\ _) with (d := Outbound.dialerHandle 0).
    reflexivity.
  - apply (proj2 (@NewVLESS_key_requirement Example.world "vless-out"
                    (Example.optionsWith "MIIB" true)) eq_refl).
  - eexists. vm_compute. reflexivity.
Defined.

(** C7 on the RelayPassthrough adapter of the examples: the refusal for an
    inbound context without blob, and the panic for a context that carries
    no inbound context. *)
Lemma DialContext_passthrough_without_blob_witness :
  Outbound.DialContext Example.world
    (Some {| Outbound.VPPLdestination := None |}) "tcp" Example.target
    (Outbound.start Example.relayPassthrough)
  = (Err VPPLDestinationEmpty, Outbound.start Example.relayPassthrough)
  /\ Outbound.DialContext Example.world None "tcp" Example.target
       (Outbound.start Example.relayPassthrough)
     = (Panic, Outbound.start Example.relayPassthrough).
Proof.
  destruct (@DialContext_passthrough_without_blob Example.world "tcp"
              Example.target (Outbound.start Example.relayPassthrough)
              eq_refl eq_refl) as [Herr Hnil].
  split; [apply Herr; reflexivity | exact Hnil].
Defined.

(** C9 as stated fails: a ClientEncrypt dial leaves its ciphertext in the
    adapter, and the next [ListenPacket] on that adapter hands it to the
    protocol client for another destination. *)
Lemma DialContext_rewrites_originDest :
  let st1 := snd (Outbound.DialContext Example.world None "tcp" Example.target
                    (Outbound.start Example.clientEncrypt)) in
  let st2 := snd (Outbound.ListenPacket Example.world Example.server
                    (Outbound.start (Outbound.adapter st1))) in
  Outbound.originDest Example.clientEncrypt = None
  /\ Outbound.originDest (Outbound.adapter st1) = Some Example.sealedTarget
  /\ Outbound.adapter st1 <> Example.clientEncrypt
  /\ Outbound.negotiations (Outbound.trace st2)
     = [(Example.server, Some (Some Example.sealedTarget))].
Proof.
  cbv zeta.
  assert (E : Outbound.originDest
                (Outbound.adapter
                   (snd (Outbound.DialContext Example.world None "tcp" Example.target
                           (Outbound.start Example.clientEncrypt))))
              = Some Example.sealedTarget)
    by (vm_compute; reflexivity).
  split; [reflexivity|]. split; [exact E|]. split.
  - intros Heq. rewrite Heq in E. discriminate E.
  - vm_compute. reflexivity.
Qed.

(** The frame of C9 on the packetaddr adapter, whose extension is off. *)
Lemma DialContext_writes_only_originDest_witness :
  let st' := snd (Outbound.DialContext Example.world None "udp" Example.target
                    (Outbound.start Example.packetaddr)) in
  Outbound.adapter st'
  = Outbound.setOriginDest (Outbound.originDest (Outbound.adapter st'))
      Example.packetaddr
  /\ Outbound.adapter st' = Example.packetaddr.
Proof.
  cbv zeta.
  pose proof (@DialContext_writes_only_originDest Example.world None "udp"
                Example.target (Outbound.start Example.packetaddr)) as [Hw [Hoff _]].
  split; [exact Hw|exact (Hoff eq_refl)].
Defined.

(* ================================================================== *)
(** * Further properties of the codec *)

Lemma RequestAddonLen_none (r : Request) :
  Flow r = [] -> VPPLDestAddr r = None -> RequestAddonLen r = 0%nat.
Proof. intros Hf Hv. unfold RequestAddonLen. rewrite Hf, Hv. reflexivity. Qed.

Lemma requestWire_none (r : Request) (addr : list byte) :
  Flow r = [] -> VPPLDestAddr r = None ->
  requestWire r addr = [Version] ++ UUID r ++ [x00] ++ [Command r] ++ addr.
Proof.
  intros Hf Hv. unfold requestWire, addonsWire.
  rewrite (RequestAddonLen_none r Hf Hv). reflexivity.
Qed.

Section NoAddons.
Context `{AddressSerializer}.

(** Decoding a header with addon length 0. *)
Lemma ReadRequest_plain_header (uuid : list byte) (c : byte) (tail : list byte) :
  length uuid = 16%nat ->
  ReadRequest ([Version] ++ uuid ++ [x00] ++ [c] ++ tail)
  = ('(destination, r6) <-
       (if negb (Byte.eqb c CommandMux)
        then wrap CantSerializeAddress (ReadAddrPort tail)
        else Ok (zeroSocksaddr, tail)) ;;
     Ok ({| UUID := uuid; Command := c; Destination := destination;
            Flow := []; VPPLDestAddr := None |}, r6)).
Proof.
  intros Hu. unfold ReadRequest. cbn [app ReadByte wrap rbind].
  change (Byte.eqb Version Version) with true. cbn [negb].
  assert (H16 : 16 = len uuid) by (unfold len; rewrite Hu; reflexivity).
  rewrite H16, ReadFull_app. cbn [wrap rbind app].
  change (ReadUVariant (x00 :: c :: tail)) with (Ok (0, c :: tail)).
  cbn [wrap rbind ReadByte]. reflexivity.
Qed.
End NoAddons.

(** X1.  The empty-addon round trip: a request with an empty flow and a nil
    obfuscated destination is written with an addon-length byte of 0 and
    no optional block, and decodes to the very same request, nil included,
    leaving the payload on the stream. *)
Theorem ReadRequest_WriteRequest_no_addons `{AddressSerializer}
  (r : Request) (payload out : list byte) :
  length (UUID r) = 16%nat ->
  Flow r = [] ->
  VPPLDestAddr r = None ->
  (Command r = CommandMux -> Destination r = zeroSocksaddr) ->
  WritesAnnouncedLen (Destination r) ->
  ReadsBackWritten (Destination r) ->
  WriteRequest r payload = Ok out ->
  (exists addr, out = [Version] ++ UUID r ++ [x00] ++ [Command r] ++ addr ++ payload)
  /\ ReadRequest out = Ok (r, payload).
Proof.
  intros Hu Hf Hv Hmux Hlen Hback Hw.
  destruct (Byte.byte_eq_dec (Command r) CommandMux) as [Hc|Hc].
  - destruct (WriteRequest_mux r payload Hu Hc) as [Hw' _].
    assert (Eo : out = requestWire r [] ++ payload) by congruence. subst out.
    rewrite requestWire_none by assumption. split.
    + exists []. rewrite <- !app_assoc. reflexivity.
    + rewrite <- !app_assoc. rewrite ReadRequest_plain_header by exact Hu.
      destruct r as [u c d f v]. cbn [UUID Command Destination Flow VPPLDestAddr] in *.
      subst f v c. change (Byte.eqb CommandMux CommandMux) with true.
      cbn [negb rbind app]. rewrite (Hmux eq_refl). reflexivity.
  - destruct (WriteAddrPort (Destination r)) as [bs|e|] eqn:E.
    + destruct (WriteRequest_addr r payload Hu Hc E (Hlen bs E)) as [Hw' _].
      assert (Eo : out = requestWire r bs ++ payload) by congruence. subst out.
      rewrite requestWire_none by assumption. split.
      * exists bs. rewrite <- !app_assoc. reflexivity.
      * rewrite <- !app_assoc. rewrite ReadRequest_plain_header by exact Hu.
        rewrite byte_eqb_neq by exact Hc. cbn [negb].
        rewrite (Hback bs payload E). cbn [wrap rbind].
        destruct r as [u c d f v]. cbn [UUID Command Destination Flow VPPLDestAddr] in *.
        subst f v. reflexivity.
    + exfalso. revert Hw. apply WriteRequest_failure; try assumption.
      intros bs. rewrite E. discriminate.
    + exfalso. revert Hw. apply WriteRequest_failure; try assumption.
      intros bs. rewrite E. discriminate.
Qed.

Lemma requestWire_same_fields (r r' : Request) (addr : list byte) :
  UUID r' = UUID r -> Command r' = Command r -> Flow r' = Flow r ->
  VPPLDestAddr r' = VPPLDestAddr r ->
  requestWire r' addr = requestWire r addr.
Proof.
  destruct r as [u c d f v], r' as [u' c' d' f' v'].
  cbn [UUID Command Flow VPPLDestAddr]. intros -> -> -> ->. reflexivity.
Qed.

(** X2.  MUX omission: a request with command MUX is written without any
    destination bytes, whatever its destination field and whatever the
    address codec is, and it is decoded without asking the address codec,
    with the zero destination, also when nothing follows the command. *)
Theorem WriteRequest_mux_omits_destination `{AddressSerializer}
  (r : Request) (payload : list byte) :
  length (UUID r) = 16%nat ->
  Command r = CommandMux ->
  Z.of_nat (RequestAddonLen r) < 2 ^ 63 ->
  exists out,
    WriteRequest r payload = Ok out
    /\ (forall r', UUID r' = UUID r -> Command r' = Command r ->
                   Flow r' = Flow r -> VPPLDestAddr r' = VPPLDestAddr r ->
                   WriteRequest r' payload = Ok out)
    /\ exists q, ReadRequest out = Ok (q, payload)
                 /\ UUID q = UUID r /\ Command q = CommandMux
                 /\ Destination q = zeroSocksaddr /\ Flow q = Flow r.
Proof.
  intros Hu Hc Hint. destruct (WriteRequest_mux r payload Hu Hc) as [Hw _].
  exists (requestWire r [] ++ payload). split; [exact Hw|]. split.
  - intros r' Eu Ec Ef Ev.
    assert (Hu' : length (UUID r') = 16%nat) by (rewrite Eu; exact Hu).
    assert (Hc' : Command r' = CommandMux) by (rewrite Ec; exact Hc).
    destruct (WriteRequest_mux r' payload Hu' Hc') as [Hw' _].
    rewrite Hw'. rewrite (requestWire_same_fields r r' [] Eu Ec Ef Ev). reflexivity.
  - destruct (Flow r) as [|f0 fl] eqn:Ef; [destruct (VPPLDestAddr r) as [v|] eqn:Ev|].
    + rewrite ReadRequest_requestWire;
        [|exact Hu|right; rewrite Ev; discriminate|exact Hint].
      rewrite Hc. change (Byte.eqb CommandMux CommandMux) with true.
      cbn [negb rbind app]. eexists. split; [reflexivity|].
      cbn [UUID Command Destination Flow]. rewrite Ef. repeat split; reflexivity.
    + rewrite requestWire_none by assumption. rewrite <- !app_assoc.
      rewrite ReadRequest_plain_header by exact Hu.
      rewrite Hc. change (Byte.eqb CommandMux CommandMux) with true.
      cbn [negb rbind app]. eexists. split; [reflexivity|].
      cbn [UUID Command Destination Flow]. repeat split; reflexivity.
    + rewrite ReadRequest_requestWire;
        [|exact Hu|left; rewrite Ef; discriminate|exact Hint].
      rewrite Hc. change (Byte.eqb CommandMux CommandMux) with true.
      cbn [negb rbind app]. eexists. split; [reflexivity|].
      cbn [UUID Command Destination Flow]. rewrite Ef. repeat split; reflexivity.
Qed.

(** X3.  Coalescing: writing a request together with a payload gives the
    bytes of the request written alone, followed by the payload. *)
Theorem WriteRequest_payload_appended `{AddressSerializer}
  (r : Request) (payload header : list byte) :
  length (UUID r) = 16%nat ->
  WritesAnnouncedLen (Destination r) ->
  WriteRequest r [] = Ok header ->
  WriteRequest r payload = Ok (header ++ payload)
  /\ length header = RequestLen r.
Proof.
  intros Hu Hlen Hh.
  destruct (Byte.byte_eq_dec (Command r) CommandMux) as [Hc|Hc].
  - destruct (WriteRequest_mux r [] Hu Hc) as [H0 Hl].
    destruct (WriteRequest_mux r payload Hu Hc) as [Hp _].
    assert (Eh : header = requestWire r []) by (rewrite app_nil_r in H0; congruence).
    subst header. split; assumption.
  - destruct (WriteAddrPort (Destination r)) as [bs|e|] eqn:E.
    + destruct (WriteRequest_addr r [] Hu Hc E (Hlen bs E)) as [H0 Hl].
      destruct (WriteRequest_addr r payload Hu Hc E (Hlen bs E)) as [Hp _].
      assert (Eh : header = requestWire r bs) by (rewrite app_nil_r in H0; congruence).
      subst header. split; assumption.
    + exfalso. revert Hh. apply WriteRequest_failure; try assumption.
      intros bs. rewrite E. discriminate.
    + exfalso. revert Hh. apply WriteRequest_failure; try assumption.
      intros bs. rewrite E. discriminate.
Qed.

Lemma len_pos_cons {A} (x : A) (l : list A) : 0 < len (x :: l).
Proof. unfold len. cbn [length]. lia. Qed.

(** Decoding up to the optional block, for a block of [int] length. *)
Lemma ReadRequest_block `{AddressSerializer}
  (uuid block tail : list byte) :
  length uuid = 16%nat -> 0 < len block < 2 ^ 63 ->
  ReadRequest ([Version] ++ uuid ++ PutUvarint (len block) ++ block ++ tail)
  = ('(flow, vppl, r4) <-
       (addons <- wrap CantParseAddons (readAddons block) ;;
        Ok (AddonsFlow addons, VPPLDestination addons, tail)) ;;
     '(command, r5) <- wrap CantReadCommand (ReadByte r4) ;;
     '(destination, r6) <-
        (if negb (Byte.eqb command CommandMux)
         then wrap CantSerializeAddress (ReadAddrPort r5)
         else Ok (zeroSocksaddr, r5)) ;;
     Ok ({| UUID := uuid; Command := command; Destination := destination;
            Flow := flow; VPPLDestAddr := vppl |}, r6)).
Proof.
  intros Hu Hb. unfold ReadRequest. cbn [app ReadByte wrap rbind].
  change (Byte.eqb Version Version) with true. cbn [negb].
  assert (H16 : 16 = len uuid) by (unfold len; rewrite Hu; reflexivity).
  rewrite H16, ReadFull_app. cbn [wrap rbind].
  assert (Hr : 0 <= len block < 2 ^ 64).
  { split; [lia|]. apply Z.lt_trans with (2 ^ 63); [lia|reflexivity]. }
  rewrite ReadUVariant_PutUvarint by exact Hr. cbn [wrap rbind].
  destruct (Z.ltb_spec 0 (len block)); [|lia].
  unfold int_of_uint64. destruct (Z.ltb_spec (len block) (2 ^ 63)); [|lia].
  rewrite ReadBytes_app. cbn [wrap rbind]. reflexivity.
Qed.

(** X4.  Tag rejection: an optional block whose first byte is not 10 makes
    the decode fail with the unknown-header error, whatever the rest of the
    block and of the stream is; no flow is accepted from it. *)
Theorem ReadRequest_rejects_first_tag `{AddressSerializer}
  (uuid block tail : list byte) (b : byte) :
  length uuid = 16%nat ->
  b <> x0a ->
  len (b :: block) < 2 ^ 63 ->
  ReadRequest ([Version] ++ uuid ++ PutUvarint (len (b :: block))
               ++ (b :: block) ++ tail)
  = Err (CantParseAddons (UnknownProtobufHeader b)).
Proof.
  intros Hu Hb Hl.
  rewrite ReadRequest_block; [|exact Hu|split; [apply len_pos_cons|exact Hl]].
  unfold readAddons. cbn [ReadByte rbind].
  rewrite byte_eqb_neq by exact Hb. reflexivity.
Qed.

(** X5.  The addon parser accepts a block that ends after the tag, or after
    the flow field: the flow read so far is kept and the obfuscated
    destination stays nil. *)
Theorem readAddons_flow_only (flow : list byte) :
  len flow < 2 ^ 63 ->
  readAddons ([x0a] ++ PutUvarint (len flow) ++ flow)
  = Ok {| AddonsFlow := flow; VPPLDestination := None |}
  /\ readAddons [x0a] = Ok {| AddonsFlow := []; VPPLDestination := None |}.
Proof.
  intros Hl. split; [|reflexivity].
  pose proof (len_nonneg flow) as H0.
  assert (Hr : 0 <= len flow < 2 ^ 64).
  { split; [lia|]. apply Z.lt_trans with (2 ^ 63); [lia|reflexivity]. }
  unfold readAddons. cbn [app ReadByte rbind].
  change (Byte.eqb x0a x0a) with true. cbn [negb].
  rewrite ReadUVariant_PutUvarint by exact Hr.
  rewrite <- (uint64_small Hr) at 1. rewrite int_of_uint64_len by exact Hl.
  rewrite <- (app_nil_r flow) at 2. rewrite ReadBytes_app. reflexivity.
Qed.

(** X6.  After the flow field only tag 18 is accepted: any other byte
    makes the addon parser fail with the unknown-header error. *)
Theorem readAddons_rejects_second_tag (flow tail : list byte) (b : byte) :
  len flow < 2 ^ 63 ->
  b <> x12 ->
  readAddons ([x0a] ++ PutUvarint (len flow) ++ flow ++ b :: tail)
  = Err (UnknownProtobufHeader b).
Proof.
  intros Hl Hb.
  pose proof (len_nonneg flow) as H0.
  assert (Hr : 0 <= len flow < 2 ^ 64).
  { split; [lia|]. apply Z.lt_trans with (2 ^ 63); [lia|reflexivity]. }
  unfold readAddons. cbn [app ReadByte rbind].
  change (Byte.eqb x0a x0a) with true. cbn [negb].
  rewrite ReadUVariant_PutUvarint by exact Hr.
  rewrite <- (uint64_small Hr) at 1. rewrite int_of_uint64_len by exact Hl.
  rewrite ReadBytes_app. cbn [rbind ReadByte].
  rewrite byte_eqb_neq by exact Hb. reflexivity.
Qed.

(** X7.  The addon parser stops after the obfuscated destination: bytes
    that follow it inside the block are ignored. *)
Theorem readAddons_ignores_trailing (flow dest junk : list byte) :
  len flow < 2 ^ 63 ->
  len dest < 2 ^ 63 ->
  readAddons ([x0a] ++ PutUvarint (len flow) ++ flow
              ++ [x12] ++ PutUvarint (len dest) ++ dest ++ junk)
  = Ok {| AddonsFlow := flow; VPPLDestination := Some dest |}.
Proof.
  intros Hl Hd.
  pose proof (len_nonneg flow) as H0. pose proof (len_nonneg dest) as H1.
  assert (Hr : 0 <= len flow < 2 ^ 64).
  { split; [lia|]. apply Z.lt_trans with (2 ^ 63); [lia|reflexivity]. }
  assert (Hs : 0 <= len dest < 2 ^ 64).
  { split; [lia|]. apply Z.lt_trans with (2 ^ 63); [lia|reflexivity]. }
  unfold readAddons. cbn [app ReadByte rbind].
  change (Byte.eqb x0a x0a) with true. cbn [negb].
  rewrite ReadUVariant_PutUvarint by exact Hr.
  rewrite <- (uint64_small Hr) at 1. rewrite int_of_uint64_len by exact Hl.
  rewrite ReadBytes_app. cbn [rbind ReadByte].
  change (Byte.eqb x12 x12) with true. cbn [negb].
  rewrite ReadUVariant_PutUvarint by exact Hs. cbn [rbind].
  rewrite <- (uint64_small Hs) at 1 2. rewrite int_of_uint64_len by exact Hd.
  rewrite ReadBytes_app. reflexivity.
Qed.

(** X10.  An addon length of [2^63] or more, read from the wire, becomes a
    negative [int]: the decode panics in [rw.ReadBytes] instead of
    returning an error, whatever follows. *)
Theorem ReadRequest_huge_addons_length_panics `{AddressSerializer}
  (uuid tail : list byte) (x : Z) :
  length uuid = 16%nat ->
  2 ^ 63 <= x < 2 ^ 64 ->
  ReadRequest ([Version] ++ uuid ++ PutUvarint x ++ tail) = Panic.
Proof.
  intros Hu Hx. unfold ReadRequest. cbn [app ReadByte wrap rbind].
  change (Byte.eqb Version Version) with true. cbn [negb].
  assert (H16 : 16 = len uuid) by (unfold len; rewrite Hu; reflexivity).
  rewrite H16, ReadFull_app. cbn [wrap rbind].
  assert (Hp : 0 < 2 ^ 63) by reflexivity.
  rewrite ReadUVariant_PutUvarint by lia. cbn [wrap rbind].
  destruct (Z.ltb_spec 0 x); [|lia].
  unfold int_of_uint64. destruct (Z.ltb_spec x (2 ^ 63)); [lia|].
  unfold ReadBytes. destruct (Z.ltb_spec (x - 2 ^ 64) 0); [|lia]. reflexivity.
Qed.

Lemma ReadFull_length (n : Z) (r p rest : list byte) :
  0 <= n -> ReadFull n r = Ok (p, rest) -> len p = n /\ r = p ++ rest.
Proof.
  intros Hn. unfold ReadFull. destruct (Z.leb_spec n (len r)) as [Hle|]; [|discriminate].
  intros E. injection E as <- <-. split.
  - unfold len in *. rewrite length_firstn. lia.
  - symmetry. apply firstn_skipn.
Qed.

(** X8.  Whatever the stream, a request that decodes has a 16-byte
    identity taken from the bytes after the version byte 0, and a decoded
    MUX request has the zero destination: the address codec was not
    asked. *)
Theorem ReadRequest_decoded_wellformed `{AddressSerializer}
  (stream rest : list byte) (q : Request) :
  ReadRequest stream = Ok (q, rest) ->
  length (UUID q) = 16%nat
  /\ (exists tail, stream = Version :: UUID q ++ tail)
  /\ (Command q = CommandMux -> Destination q = zeroSocksaddr).
Proof.
  unfold ReadRequest. destruct stream as [|v s]; [discriminate|].
  cbn [ReadByte wrap rbind].
  destruct (Byte.eqb v Version) eqn:Ev; cbn [negb]; [|discriminate].
  apply Byte.byte_dec_bl in Ev. subst v.
  destruct (ReadFull 16 s) as [[uuid r2]|e|] eqn:Eu; cbn [wrap rbind]; try discriminate.
  apply ReadFull_length in Eu; [|lia]. destruct Eu as [Hl Hs].
  destruct (ReadUVariant r2) as [[n r3]|e|]; cbn [wrap rbind]; try discriminate.
  match goal with
  | |- context [rbind ?m _] =>
      destruct m as [[[flow vppl] r4]|e|]; cbn [rbind]; try discriminate
  end.
  destruct (ReadByte r4) as [[c r5]|e|]; cbn [wrap rbind]; try discriminate.
  destruct (Byte.eqb c CommandMux) eqn:Ec; cbn [negb].
  - cbn [rbind]. intros E. injection E as <- <-. cbn [UUID Command Destination].
    split; [unfold len in Hl; lia|]. split; [exists r2; rewrite Hs; reflexivity|].
    reflexivity.
  - destruct (ReadAddrPort r5) as [[d r6]|e|]; cbn [wrap rbind]; try discriminate.
    intros E. injection E as <- <-. cbn [UUID Command Destination].
    split; [unfold len in Hl; lia|]. split; [exists r2; rewrite Hs; reflexivity|].
    intros Hc. apply Byte.eqb_false in Ec. contradiction.
Qed.

(** The wire image of a packet request. *)
Lemma WritePacketRequest_image `{AddressSerializer}
  (r : Request) (payload addr : list byte) :
  length (UUID r) = 16%nat ->
  WriteAddrPort (Destination r) = Ok addr ->
  length addr = AddrPortLen (Destination r) ->
  WritePacketRequest r payload
  = Ok ([Version] ++ UUID r ++ [x00] ++ [CommandUDP] ++ addr
        ++ match payload with
           | [] => []
           | _ => PutUint16 (uint16 (len payload)) ++ payload
           end).
Proof.
  intros Hu Hw Hlen. unfold WritePacketRequest. cbv zeta.
  change (byte_of_Z (Z.of_nat 0)) with x00.
  change (0 <? 0)%nat with false. cbv iota.
  assert (Hp : length (PutUint16 (uint16 (len payload))) = 2%nat) by reflexivity.
  destruct payload as [|p0 ps].
  - cbn [length Nat.ltb Nat.leb]. repeat packet_step.
    cbn [put data NewSize app]. rewrite <- !app_assoc, app_nil_r. reflexivity.
  - destruct (Nat.ltb_spec 0 (length (p0 :: ps))) as [_|Hz];
      [|cbn [length] in Hz; lia].
    set (pl := p0 :: ps) in *. repeat packet_step.
    cbn [put data NewSize app]. rewrite <- !app_assoc. reflexivity.
Qed.

(** X9.  A packet request decodes, with the request decoder, to a UDP
    request with the writer's identity and destination, no flow and a nil
    obfuscated destination; what is left on the stream is the payload
    behind its two length bytes, or nothing for an empty payload. *)
Theorem ReadRequest_WritePacketRequest `{AddressSerializer}
  (r : Request) (payload out : list byte) :
  length (UUID r) = 16%nat ->
  WritesAnnouncedLen (Destination r) ->
  ReadsBackWritten (Destination r) ->
  WritePacketRequest r payload = Ok out ->
  ReadRequest out
  = Ok ({| UUID := UUID r; Command := CommandUDP; Destination := Destination r;
           Flow := []; VPPLDestAddr := None |},
        match payload with
        | [] => []
        | _ => PutUint16 (uint16 (len payload)) ++ payload
        end).
Proof.
  intros Hu Hlen Hback Hw.
  destruct (WriteAddrPort (Destination r)) as [addr|e|] eqn:E.
  - rewrite (WritePacketRequest_image r payload Hu E (Hlen addr E)) in Hw.
    match type of Hw with Ok ?w = _ => assert (Eo : out = w) by congruence end.
    rewrite Eo. rewrite ReadRequest_plain_header by exact Hu.
    change (Byte.eqb CommandUDP CommandMux) with false. cbn [negb].
    rewrite (Hback addr _ E). reflexivity.
  - exfalso. revert Hw. unfold WritePacketRequest, BufferWriteAddrPort. cbv zeta.
    rewrite E. cbn [rbind].
    repeat match goal with
    | |- context [rbind ?m _] =>
        lazymatch m with
        | Err _ => fail
        | _ => destruct m; cbn [rbind]; try discriminate
        end
    end.
  - exfalso. revert Hw. unfold WritePacketRequest, BufferWriteAddrPort. cbv zeta.
    rewrite E. cbn [rbind].
    repeat match goal with
    | |- context [rbind ?m _] =>
        lazymatch m with
        | Panic => fail
        | _ => destruct m; cbn [rbind]; try discriminate
        end
    end.
Qed.

(** X11.  The response decoder succeeds exactly on a stream that starts
    with the version byte 0, a length byte [N] and [N] further bytes, and
    it leaves what follows them; a zero length byte skips nothing. *)
Theorem ReadResponse_succeeds_iff (stream rest : list byte) :
  ReadResponse stream = Ok rest
  <-> exists (n : byte) (trailing : list byte),
        stream = Version :: n :: trailing ++ rest
        /\ len trailing = byte_to_Z n.
Proof.
  split.
  - unfold ReadResponse. destruct stream as [|v s]; [discriminate|].
    cbn [ReadByte rbind]. destruct (Byte.eqb v Version) eqn:Ev; cbn [negb];
      [|discriminate].
    apply Byte.byte_dec_bl in Ev. subst v.
    destruct s as [|n t]; [discriminate|]. cbn [ReadByte rbind].
    pose proof (byte_to_Z_range n) as Hn.
    destruct (Z.ltb_spec 0 (byte_to_Z n)) as [Hpos|Hz].
    + unfold SkipN. destruct (Z.leb_spec (byte_to_Z n) (len t)) as [Hle|]; [|discriminate].
      intros E. injection E as <-.
      exists n, (firstn (Z.to_nat (byte_to_Z n)) t). split.
      * rewrite firstn_skipn. reflexivity.
      * unfold len in *. rewrite length_firstn. lia.
    + intros E. injection E as <-. exists n, []. split; [reflexivity|].
      unfold len. cbn [length]. lia.
  - intros [n [trailing [-> Hl]]]. unfold ReadResponse. cbn [ReadByte rbind].
    change (Byte.eqb Version Version) with true. cbn [negb].
    destruct (Z.ltb_spec 0 (byte_to_Z n)) as [Hpos|Hz].
    + rewrite <- Hl. apply SkipN_app.
    + pose proof (len_nonneg trailing) as H0.
      destruct trailing; [reflexivity|]. unfold len in Hl. cbn [length] in Hl. lia.
Qed.

(** A varint that is read takes at least one byte off the stream. *)
Lemma ReadUvarint_loop_consumes (n : nat) :
  forall (i x s : Z) (r r' : list byte) (v : Z),
    ReadUvarint_loop n i x s r = Ok (v, r') ->
    (length r' < length r)%nat.
Proof.
  induction n as [|n IH]; intros i x s r r' v; [discriminate|].
  destruct r as [|b t]; [discriminate|]. rewrite ReadUvarint_loop_cons.
  destruct (byte_to_Z b <? 128).
  - destruct ((i =? 9) && (1 <? byte_to_Z b)); [discriminate|].
    intros E. injection E as _ <-. cbn [length]. lia.
  - intros E. apply IH in E. cbn [length]. lia.
Qed.

(** X24.  No stream shorter than 19 bytes decodes to a request: the
    version, the identity, the addon length and the command take at least
    that many, and what the decoder leaves is shorter than the stream by
    as much. *)
Theorem ReadRequest_min_length `{AddressSerializer}
  (stream rest : list byte) (q : Request) :
  ReadRequest stream = Ok (q, rest) ->
  (19 <= length stream)%nat
  /\ (Command q = CommandMux -> (length rest + 19 <= length stream)%nat).
Proof.
  unfold ReadRequest. destruct stream as [|v s]; [discriminate|].
  cbn [ReadByte wrap rbind].
  destruct (Byte.eqb v Version); cbn [negb]; [|discriminate].
  destruct (ReadFull 16 s) as [[uuid r2]|e|] eqn:Eu; cbn [wrap rbind]; try discriminate.
  apply ReadFull_length in Eu; [|lia]. destruct Eu as [Hl Hs].
  destruct (ReadUVariant r2) as [[n r3]|e|] eqn:Ev; cbn [wrap rbind]; try discriminate.
  apply ReadUvarint_loop_consumes in Ev.
  assert (H4 : forall flow vppl r4,
    (if 0 <? n
     then '(addonsBytes, r4) <-
             wrap CantReadAddons (ReadBytes (int_of_uint64 n) r3) ;;
          addons <- wrap CantParseAddons (readAddons addonsBytes) ;;
          Ok (AddonsFlow addons, VPPLDestination addons, r4)
     else Ok ([], None, r3)) = Ok (flow, vppl, r4) ->
    (length r4 <= length r3)%nat).
  { intros flow vppl r4. destruct (0 <? n).
    - unfold ReadBytes. destruct (int_of_uint64 n <? 0) eqn:En; [discriminate|].
      destruct (ReadFull (int_of_uint64 n) r3) as [[ab r4']|e|] eqn:Ea;
        cbn [wrap rbind]; try discriminate.
      apply ReadFull_length in Ea; [|apply Z.ltb_ge in En; lia].
      destruct Ea as [_ Ea].
      destruct (readAddons ab); cbn [wrap rbind]; try discriminate.
      intros E. injection E as _ _ <-. rewrite Ea, length_app. lia.
    - intros E. injection E as _ _ <-. lia. }
  match goal with
  | |- context [rbind ?m _] =>
      destruct m as [[[flow vppl] r4]|e|] eqn:E4; cbn [rbind]; try discriminate
  end.
  pose proof (H4 _ _ _ eq_refl) as Hr4. clear H4 E4.
  destruct r4 as [|c r5]; [discriminate|]. cbn [ReadByte wrap rbind].
  assert (Hlen : (length (c :: r5) + 18 <= length (v :: s))%nat).
  { rewrite Hs. cbn [length]. rewrite length_app. unfold len in Hl.
    cbn [length] in Hr4. lia. }
  destruct (Byte.eqb c CommandMux) eqn:Ec; cbn [negb].
  - cbn [rbind]. intros E. injection E as <- <-. cbn [Command].
    cbn [length] in *. split; [lia|]. intros _. lia.
  - destruct (ReadAddrPort r5) as [[d r6]|e|]; cbn [wrap rbind]; try discriminate.
    intros E. injection E as <- <-. cbn [Command]. cbn [length] in *.
    split; [lia|]. intros Hc. apply Byte.eqb_false in Ec. contradiction.
Qed.

(** The flow-only wire of the examples is long enough. *)
Lemma ReadRequest_min_length_witness :
  (19 <= length (requestWire Example.flowOnly Example.serverBytes
                 ++ Example.payload))%nat
  /\ (Command (decodedImage Example.flowOnly) = CommandMux ->
      (length Example.payload + 19
       <= length (requestWire Example.flowOnly Example.serverBytes
                  ++ Example.payload))%nat).
Proof.
  apply (@ReadRequest_min_length vmessAddressSerializer
           (requestWire Example.flowOnly Example.serverBytes ++ Example.payload)
           Example.payload (decodedImage Example.flowOnly)).
  vm_compute. reflexivity.
Defined.

(* ================================================================== *)
(** * Further properties of the adapter *)

Lemma packetEncoding_exclusive (enc : option string) (pa xu : bool) :
  Outbound.packetEncoding enc = Ok (pa, xu) ->
  pa && xu = false /\ (enc = None -> xu = true).
Proof.
  unfold Outbound.packetEncoding. destruct enc as [e|].
  - repeat match goal with
    | |- context [if ?c then _ else _] => destruct c
    end; intros E; try discriminate E; injection E as <- <-;
      (split; [reflexivity|discriminate]).
  - intros E. injection E as <- <-. split; reflexivity.
Qed.

(** X12.  What every constructed adapter satisfies: at most one of the
    packetaddr and xudp framings is selected, xudp being the one selected
    when no packet encoding is configured; the protocol client is set; no
    obfuscated destination is stored yet; the extension flags are those of
    the options, the proxy flag counting only when the extension is
    enabled. *)
Theorem NewVLESS_adapter_invariants (w : Outbound.World) (tag : string)
  (o : Options.VLESSOutboundOptions) (h : Outbound.VLESS) :
  Outbound.NewVLESS w tag o = Ok h ->
  Outbound.packetAddr h && Outbound.xudp h = false
  /\ (Options.PacketEncoding o = None -> Outbound.xudp h = true)
  /\ (exists c, Outbound.client h = Some c)
  /\ Outbound.originDest h = None
  /\ Outbound.Enabled (Outbound.vppl h)
     = Options.Enabled (Options.Base (Options.VPPL o))
  /\ Outbound.Proxy (Outbound.vppl h)
     = Options.Enabled (Options.Base (Options.VPPL o))
       && Options.Proxy (Options.Base (Options.VPPL o)).
Proof.
  unfold Outbound.NewVLESS. intros Hnew.
  destruct (Outbound.dialer_New w (Options.Dialer o)) as [d|e|];
    cbn [rbind] in Hnew; try discriminate Hnew.
  destruct (Outbound.buildVPPL w (Options.VPPL o)) as [v|e|] eqn:Ev;
    cbn [rbind] in Hnew; try discriminate Hnew.
  assert (Hv : Outbound.Enabled v = Options.Enabled (Options.Base (Options.VPPL o))
               /\ Outbound.Proxy v
                  = Options.Enabled (Options.Base (Options.VPPL o))
                    && Options.Proxy (Options.Base (Options.VPPL o))).
  { revert Ev. unfold Outbound.buildVPPL, rbind.
    destruct (Options.Enabled (Options.Base (Options.VPPL o)));
      [|intros E; injection E as <-; split; reflexivity].
    destruct (Options.Proxy (Options.Base (Options.VPPL o))); cbn [negb andb];
      [intros E; injection E as <-; split; reflexivity|].
    repeat match goal with
    | |- context [match ?x with _ => _ end] => destruct x; try discriminate
    end.
    intros E; injection E as <-; split; reflexivity. }
  match type of Hnew with
  | rbind ?m _ = _ => destruct m as [h1|e|] eqn:E1; cbn [rbind] in Hnew;
                      try discriminate Hnew
  end.
  match type of Hnew with
  | rbind ?m _ = _ => destruct m as [h2|e|] eqn:E2; cbn [rbind] in Hnew;
                      try discriminate Hnew
  end.
  destruct (Outbound.packetEncoding (Options.PacketEncoding o)) as [[pa xu]|e|] eqn:Ep;
    cbn [rbind] in Hnew; try discriminate Hnew.
  destruct (Outbound.vless_NewClient w (Options.UUID o) (Options.Flow o)) as [c|e|];
    cbn [rbind] in Hnew; try discriminate Hnew.
  match type of Hnew with
  | rbind ?m _ = _ => destruct m as [m0|e|]; cbn [rbind] in Hnew;
                      try discriminate Hnew
  end.
  injection Hnew as <-.
  assert (H1 : Outbound.vppl h1 = v /\ Outbound.originDest h1 = None).
  { destruct (Options.TLS o); [|injection E1 as <-; split; reflexivity].
    revert E1. unfold rbind.
    destruct (Outbound.tls_NewClient w _ _); try discriminate.
    intros E; injection E as <-. split; reflexivity. }
  assert (H2 : Outbound.vppl h2 = v /\ Outbound.originDest h2 = None).
  { destruct (Options.Transport o); [|injection E2 as <-; exact H1].
    revert E2. destruct (Options.Enabled _); [discriminate|]. unfold rbind, wrap.
    destruct (Outbound.v2ray_NewClientTransport w _ _ _ _); try discriminate.
    intros E; injection E as <-. exact H1. }
  destruct H2 as [H2v H2o]. destruct Hv as [Hve Hvp].
  destruct (packetEncoding_exclusive _ Ep) as [Hx Hn].
  cbn [Outbound.setMultiplexDialer Outbound.setClient Outbound.setPacketEncoding
       Outbound.packetAddr Outbound.xudp Outbound.client Outbound.originDest
       Outbound.vppl].
  rewrite H2v. repeat split; try assumption. eexists; reflexivity.
Qed.



(** X14.  The extension and a transport exclude each other at
    construction: with the extension enabled, in either mode, options that
    name a transport never yield an adapter. *)
Theorem NewVLESS_rejects_transport_with_VPPL (w : Outbound.World)
  (tag : string) (o : Options.VLESSOutboundOptions)
  (t : Options.V2RayTransportOptions) :
  Options.Enabled (Options.Base (Options.VPPL o)) = true ->
  Options.Transport o = Some t ->
  forall h, Outbound.NewVLESS w tag o <> Ok h.
Proof.
  intros He Ht h. unfold Outbound.NewVLESS. rewrite Ht, He. unfold rbind.
  repeat match goal with
  | |- context [match ?x with _ => _ end] =>
      lazymatch x with
      | Err _ => fail
      | _ => destruct x; try discriminate
      end
  end.
Qed.

(** X15.  RelayPassthrough: with a non-empty blob in the inbound context,
    a direct dial stores the blob unchanged in [originDest] and goes on as
    the protocol dial towards the caller's destination; the one physical
    connection is opened to that destination, not to the server address,
    and every TCP or XUDP handshake declares it and carries the blob. *)
Theorem DialContext_RelayPassthrough (w : Outbound.World)
  (inbCtx : Outbound.InboundContext) (network : string) (D : Socksaddr)
  (h : Outbound.VLESS) :
  Outbound.Enabled (Outbound.vppl h) = true ->
  Outbound.Proxy (Outbound.vppl h) = true ->
  Outbound.multiplexDialer h = None ->
  Outbound.transport h = None ->
  Outbound.nilLen (Outbound.VPPLdestination inbCtx) <> 0%nat ->
  let r := Outbound.DialContext w (Some inbCtx) network D (Outbound.start h) in
  r = Outbound.vlessDialer_DialContext w network D
        {| Outbound.adapter :=
             Outbound.setOriginDest (Outbound.VPPLdestination inbCtx) h;
           Outbound.trace := [] |}
  /\ Outbound.physicalTargets (Outbound.trace (snd r)) = [D]
  /\ (forall conn d od,
        In (Outbound.EvDialEarlyConn conn d od) (Outbound.trace (snd r))
        \/ In (Outbound.EvDialEarlyXUDPPacketConn conn d od) (Outbound.trace (snd r)) ->
        d = D /\ od = Outbound.VPPLdestination inbCtx).
Proof.
  intros He Hp Hm Ht Hn. cbv zeta.
  assert (E : Outbound.DialContext w (Some inbCtx) network D (Outbound.start h)
    = Outbound.vlessDialer_DialContext w network D
        {| Outbound.adapter :=
             Outbound.setOriginDest (Outbound.VPPLdestination inbCtx) h;
           Outbound.trace := [] |}).
  { unfold Outbound.DialContext, Outbound.resolveVPPL, Outbound.dbind,
      Outbound.self, Outbound.writeOriginDest, Outbound.dret, Outbound.start.
    cbn [Outbound.adapter Outbound.trace].
    rewrite He, Hp. cbn [negb].
    destruct (Nat.eqb_spec (Outbound.nilLen (Outbound.VPPLdestination inbCtx)) 0);
      [contradiction|].
    cbn [Outbound.setOriginDest Outbound.multiplexDialer Outbound.adapter].
    rewrite Hm. reflexivity. }
  rewrite E. split; [reflexivity|].
  dial_unfold.
  cbn [Outbound.setOriginDest Outbound.transport Outbound.vppl Outbound.tlsConfig
       Outbound.serverAddr Outbound.dialer Outbound.originDest Outbound.client
       Outbound.xudp Outbound.packetAddr].
  rewrite Ht, He, Hp. cbn [andb].
  repeat dial_case;
    (split; [reflexivity|]);
    intros conn0 d od [Hin|Hin]; cbn [In] in Hin;
    repeat match goal with
    | H : _ \/ _ |- _ => destruct H
    | H : False |- _ => destruct H
    end; try discriminate;
    match goal with
    | H : _ = _ |- _ => injection H as <- <- <-; split; reflexivity
    end.
Qed.

(** X16.  ClientEncrypt: when the encryption fails the dial returns its
    error after no call but the encryption, and the destination's string
    form, written to [originDest] before the encryption, stays there in
    the clear. *)
Theorem DialContext_encrypt_failure (w : Outbound.World) (ctx : Outbound.Context)
  (network : string) (D : Socksaddr) (h : Outbound.VLESS)
  (k : Outbound.PublicKey) (e : error) :
  Outbound.Enabled (Outbound.vppl h) = true ->
  Outbound.Proxy (Outbound.vppl h) = false ->
  Outbound.Key (Outbound.vppl h) = Some k ->
  Outbound.rsa_EncryptPKCS1v15 w k (Outbound.Socksaddr_String w D) = Err e ->
  let r := Outbound.DialContext w ctx network D (Outbound.start h) in
  fst r = Err e
  /\ Outbound.networkIO (Outbound.trace (snd r)) = []
  /\ Outbound.originDest (Outbound.adapter (snd r))
     = Some (Outbound.Socksaddr_String w D).
Proof.
  intros He Hp Hk Henc. cbv zeta.
  unfold Outbound.DialContext, Outbound.resolveVPPL, Outbound.dbind,
    Outbound.self, Outbound.writeOriginDest, Outbound.call, Outbound.dret,
    Outbound.start.
  cbn [Outbound.adapter Outbound.trace app].
  rewrite He, Hp. cbn [negb].
  cbn [Outbound.setOriginDest Outbound.vppl Outbound.adapter Outbound.trace app].
  rewrite Hk, Henc. repeat split; reflexivity.
Qed.

(** X17.  With a multiplex client configured, [DialContext] opens no
    connection and negotiates no handshake itself: it resolves the
    extension and hands the dial to the multiplex client, with the relay
    address as destination in ClientEncrypt mode. *)
Theorem DialContext_multiplexed (w : Outbound.World) (ctx : Outbound.Context)
  (network : string) (D : Socksaddr) (h : Outbound.VLESS)
  (m : Outbound.MuxClient) :
  Outbound.multiplexDialer h = Some m ->
  let r := Outbound.DialContext w ctx network D (Outbound.start h) in
  Outbound.physicalTargets (Outbound.trace (snd r)) = []
  /\ Outbound.negotiations (Outbound.trace (snd r)) = []
  /\ (Outbound.Enabled (Outbound.vppl h) = false ->
      r = (Outbound.mux_DialContext w m network D,
           {| Outbound.adapter := h;
              Outbound.trace := [Outbound.EvMuxDialContext network D] |}))
  /\ (forall k enc,
        Outbound.Enabled (Outbound.vppl h) = true ->
        Outbound.Proxy (Outbound.vppl h) = false ->
        Outbound.Key (Outbound.vppl h) = Some k ->
        Outbound.rsa_EncryptPKCS1v15 w k (Outbound.Socksaddr_String w D) = Ok enc ->
        r = (Outbound.mux_DialContext w m network
               (Outbound.Address (Outbound.vppl h)),
             {| Outbound.adapter := Outbound.setOriginDest (Some enc) h;
                Outbound.trace :=
                  [Outbound.EvEncrypt (Outbound.Socksaddr_String w D);
                   Outbound.EvMuxDialContext network
                     (Outbound.Address (Outbound.vppl h))] |})).
Proof.
  intros Hm. cbv zeta.
  unfold Outbound.DialContext, Outbound.resolveVPPL, Outbound.dbind,
    Outbound.self, Outbound.writeOriginDest, Outbound.call, Outbound.dret,
    Outbound.fail, Outbound.panic, Outbound.start.
  cbn [Outbound.adapter Outbound.trace app].
  split; [|split; [|split]].
  - repeat dial_case; try discriminate Hm; reflexivity.
  - repeat dial_case; try discriminate Hm; reflexivity.
  - intros He. rewrite He. cbn [Outbound.adapter]. rewrite Hm. reflexivity.
  - intros k enc He Hp Hk Henc. rewrite He, Hp. cbn [negb].
    cbn [Outbound.setOriginDest Outbound.vppl Outbound.adapter Outbound.trace app].
    rewrite Hk, Henc.
    cbn [Outbound.setOriginDest Outbound.multiplexDialer Outbound.adapter].
    rewrite Hm. reflexivity.
Qed.

(** X18.  [ListenPacket] never resolves the extension: in every mode it
    runs no encryption and leaves the adapter as it is; a handshake it
    negotiates declares the caller's own destination (the packetaddr
    sentinel under packetaddr framing) and, for XUDP, carries whatever
    [originDest] the adapter holds from an earlier dial. *)
Theorem ListenPacket_never_resolves (w : Outbound.World) (D : Socksaddr)
  (h : Outbound.VLESS) :
  let r := Outbound.ListenPacket w D (Outbound.start h) in
  Outbound.adapter (snd r) = h
  /\ (forall p, ~ In (Outbound.EvEncrypt p) (Outbound.trace (snd r)))
  /\ (forall d od, In (d, od) (Outbound.negotiations (Outbound.trace (snd r))) ->
        (d = D /\ (od = Some (Outbound.originDest h) \/ od = None))
        \/ (d = Outbound.SeqPacketMagicAddress /\ od = None))
  /\ (forall conn c,
        Outbound.multiplexDialer h = None ->
        Outbound.xudp h = true ->
        Outbound.client h = Some c ->
        fst (Outbound.acquireStream w D (Outbound.start h)) = Ok conn ->
        Outbound.negotiations (Outbound.trace (snd r))
        = [(D, Some (Outbound.originDest h))]).
Proof.
  cbv zeta. split; [apply (ListenPacket_adapter w D (Outbound.start h))|].
  split; [|split].
  - intros p. dial_unfold. repeat dial_case; cbn [In];
      intros Hin;
      repeat match goal with
      | H : _ \/ _ |- _ => destruct H
      | H : False |- _ => destruct H
      end; discriminate.
  - intros d od. dial_unfold. repeat dial_case;
      cbn [Outbound.negotiations flat_map app In];
      intros Hin;
      repeat match goal with
      | H : _ \/ _ |- _ => destruct H
      | H : False |- _ => destruct H
      end;
      match goal with
      | H : (_, _) = (_, _) |- _ => injection H as <- <-
      end; auto.
  - intros conn c Hm Hx Hc. unfold Outbound.ListenPacket, Outbound.dbind at 1.
    unfold Outbound.self at 1. cbn [Outbound.start Outbound.adapter].
    rewrite Hm. unfold Outbound.vlessDialer_ListenPacket.
    pose proof (acquireStream_adapter w D (Outbound.start h)) as Had.
    pose proof (acquireStream_negotiations w D h) as Hneg.
    destruct (Outbound.acquireStream w D (Outbound.start h)) as [a st1].
    cbn [fst snd] in *. intros ->.
    unfold Outbound.dbind, Outbound.self, Outbound.withClient, Outbound.call.
    rewrite Had. cbn [Outbound.start Outbound.adapter]. rewrite Hx.
    unfold Outbound.dbind, Outbound.self. rewrite Had.
    cbn [Outbound.start Outbound.adapter]. rewrite Hc. cbn [snd Outbound.trace]. unfold Outbound.negotiations in *.
    rewrite flat_map_app, Hneg. reflexivity.
Qed.

(** X19.  A network name that is neither tcp nor udp is found out only
    after the stream is acquired: the dial then fails with the
    unknown-network error, with no further call. *)
Theorem vlessDialer_unknown_network (w : Outbound.World)
  (network : string) (D : Socksaddr) (h : Outbound.VLESS) :
  Outbound.NetworkName network <> "tcp"%string ->
  Outbound.NetworkName network <> "udp"%string ->
  let a := Outbound.acquireStream w D (Outbound.start h) in
  let r := Outbound.vlessDialer_DialContext w network D (Outbound.start h) in
  fst r = match fst a with
          | Ok _ => Err (ErrUnknownNetwork network)
          | Err e => Err e
          | Panic => Panic
          end
  /\ snd r = snd a.
Proof.
  intros Ht Hu. cbv zeta.
  unfold Outbound.vlessDialer_DialContext, Outbound.dbind.
  destruct (Outbound.acquireStream w D (Outbound.start h)) as [[conn|e|] st1];
    cbn [fst snd]; try (split; reflexivity).
  unfold Outbound.self. cbv beta iota.
  rewrite (proj2 (String.eqb_neq _ _) Ht), (proj2 (String.eqb_neq _ _) Hu).
  split; reflexivity.
Qed.

(** X20.  With a transport configured, the stream comes from the
    transport alone: the adapter's dialer is not called and no TLS
    handshake is run by the adapter, in [DialContext] and [ListenPacket]
    alike. *)
Theorem vlessDialer_transport_only (w : Outbound.World)
  (network : string) (D : Socksaddr) (h : Outbound.VLESS)
  (t : Outbound.Transport) :
  Outbound.transport h = Some t ->
  let r := Outbound.vlessDialer_DialContext w network D (Outbound.start h) in
  let l := Outbound.vlessDialer_ListenPacket w D (Outbound.start h) in
  Outbound.physicalTargets (Outbound.trace (snd r)) = []
  /\ Outbound.physicalTargets (Outbound.trace (snd l)) = []
  /\ (forall c, ~ In (Outbound.EvTLSHandshake c) (Outbound.trace (snd r)))
  /\ (forall c, ~ In (Outbound.EvTLSHandshake c) (Outbound.trace (snd l)))
  /\ hd_error (Outbound.trace (snd r)) = Some Outbound.EvTransportDial
  /\ hd_error (Outbound.trace (snd l)) = Some Outbound.EvTransportDial.
Proof.
  intros Ht. cbv zeta. dial_unfold. rewrite Ht.
  repeat split; try intros c; repeat dial_case;
    cbn [Outbound.physicalTargets flat_map app In hd_error];
    try reflexivity;
    intros Hin;
    repeat match goal with
    | H : _ \/ _ |- _ => destruct H
    | H : False |- _ => destruct H
    end; discriminate.
Qed.

(** X21.  Outside the packetaddr branch, a udp [DialContext] and
    [ListenPacket] are the same dial: same calls, same adapter, same
    result, whenever the stream acquisition does not return an error. *)
Theorem vlessDialer_udp_is_ListenPacket (w : Outbound.World)
  (network : string) (D : Socksaddr) (h : Outbound.VLESS) :
  Outbound.NetworkName network = "udp"%string ->
  Outbound.xudp h = true \/ Outbound.packetAddr h = false ->
  (forall e, fst (Outbound.acquireStream w D (Outbound.start h)) <> Err e) ->
  Outbound.vlessDialer_DialContext w network D (Outbound.start h)
  = Outbound.vlessDialer_ListenPacket w D (Outbound.start h).
Proof.
  intros Hn Hx Hok.
  pose proof (acquireStream_adapter w D (Outbound.start h)) as Had.
  unfold Outbound.vlessDialer_DialContext, Outbound.vlessDialer_ListenPacket,
    Outbound.dbind.
  destruct (Outbound.acquireStream w D (Outbound.start h)) as [[conn|e|] st1];
    cbn [fst snd] in *.
  - unfold Outbound.self. cbv beta iota. rewrite Had.
    cbn [Outbound.start Outbound.adapter]. rewrite Hn.
    cbn [String.eqb Ascii.eqb Bool.eqb andb].
    destruct Hx as [Hx|Hx]; rewrite Hx; [reflexivity|].
    destruct (Outbound.xudp h); reflexivity.
  - exfalso. exact (Hok e eq_refl).
  - reflexivity.
Qed.

(** X22.  Under packetaddr framing a udp dial to a numeric address
    negotiates its handshake for the packetaddr sentinel address, without
    any obfuscated destination; the caller's destination appears only in
    the wrappers put around the connection the client returns. *)
Theorem vlessDialer_packetaddr_numeric (w : Outbound.World)
  (network : string) (D : Socksaddr) (h : Outbound.VLESS)
  (c : Outbound.Client) (conn : Outbound.Conn) :
  Outbound.NetworkName network = "udp"%string ->
  Outbound.xudp h = false ->
  Outbound.packetAddr h = true ->
  Outbound.Socksaddr_IsFqdn w D = false ->
  Outbound.client h = Some c ->
  fst (Outbound.acquireStream w D (Outbound.start h)) = Ok conn ->
  let r := Outbound.vlessDialer_DialContext w network D (Outbound.start h) in
  Outbound.negotiations (Outbound.trace (snd r))
  = [(Outbound.SeqPacketMagicAddress, None)]
  /\ fst r
     = match Outbound.client_DialEarlyPacketConn w c conn
               Outbound.SeqPacketMagicAddress with
       | Ok packetConn =>
           Ok (Outbound.BindPacketConn
                 (Outbound.PacketAddrConn packetConn D) D)
       | Err e => Err e
       | Panic => Panic
       end.
Proof.
  intros Hn Hx Hpa Hf Hc Ha. cbv zeta.
  pose proof (acquireStream_adapter w D (Outbound.start h)) as Had.
  pose proof (acquireStream_negotiations w D h) as Hneg.
  assert (E : Outbound.vlessDialer_DialContext w network D (Outbound.start h)
    = (match Outbound.client_DialEarlyPacketConn w c conn
               Outbound.SeqPacketMagicAddress with
       | Ok packetConn =>
           Ok (Outbound.BindPacketConn
                 (Outbound.PacketAddrConn packetConn D) D)
       | Err e => Err e
       | Panic => Panic
       end,
       {| Outbound.adapter := h;
          Outbound.trace :=
            Outbound.trace (snd (Outbound.acquireStream w D (Outbound.start h)))
            ++ [Outbound.EvDialEarlyPacketConn conn
                  Outbound.SeqPacketMagicAddress] |})).
  { unfold Outbound.vlessDialer_DialContext, Outbound.dbind.
    destruct (Outbound.acquireStream w D (Outbound.start h)) as [a st1].
    cbn [fst snd] in *. subst a.
    unfold Outbound.self. cbv beta iota.
    rewrite Had. cbn [Outbound.start Outbound.adapter].
    rewrite Hn, Hx, Hpa, Hf. cbn [String.eqb Ascii.eqb Bool.eqb andb].
    unfold Outbound.withClient, Outbound.dbind, Outbound.self, Outbound.call,
      Outbound.dret.
    rewrite Had. cbn [Outbound.start Outbound.adapter]. rewrite Hc.
    destruct (Outbound.client_DialEarlyPacketConn w c conn
                Outbound.SeqPacketMagicAddress);
      cbn [Outbound.adapter Outbound.trace]; rewrite ?Had; reflexivity. }
  rewrite E. cbn [fst snd Outbound.trace]. split; [|reflexivity].
  unfold Outbound.negotiations in *. rewrite flat_map_app, Hneg. reflexivity.
Qed.

(* ================================================================== *)
(** * The further properties on the concrete inputs *)

(** The empty-addon round trip on the plain request. *)
Lemma ReadRequest_WriteRequest_no_addons_witness :
  (exists addr,
     requestWire Example.plain Example.serverBytes ++ Example.payload
     = [Version] ++ UUID Example.plain ++ [x00] ++ [Command Example.plain]
       ++ addr ++ Example.payload)
  /\ @ReadRequest vmessAddressSerializer
       (requestWire Example.plain Example.serverBytes ++ Example.payload)
     = Ok (Example.plain, Example.payload).
Proof.
  apply (@ReadRequest_WriteRequest_no_addons vmessAddressSerializer
           Example.plain Example.payload).
  - reflexivity.
  - reflexivity.
  - reflexivity.
  - intros Hc. discriminate Hc.
  - apply vmess_WritesAnnouncedLen_ipv4. reflexivity.
  - apply vmess_ReadsBackWritten_ipv4; [reflexivity|reflexivity|].
    vm_compute. split; [discriminate|reflexivity].
  - vm_compute. reflexivity.
Defined.

(** The MUX request of the examples, whose destination is not written. *)
Lemma WriteRequest_mux_omits_destination_witness :
  exists out,
    @WriteRequest vmessAddressSerializer Example.muxed Example.payload = Ok out
    /\ (forall r', UUID r' = UUID Example.muxed ->
                   Command r' = Command Example.muxed ->
                   Flow r' = Flow Example.muxed ->
                   VPPLDestAddr r' = VPPLDestAddr Example.muxed ->
                   @WriteRequest vmessAddressSerializer r' Example.payload = Ok out)
    /\ exists q, @ReadRequest vmessAddressSerializer out = Ok (q, Example.payload)
                 /\ UUID q = UUID Example.muxed /\ Command q = CommandMux
                 /\ Destination q = zeroSocksaddr /\ Flow q = Flow Example.muxed.
Proof.
  apply (@WriteRequest_mux_omits_destination vmessAddressSerializer
           Example.muxed Example.payload).
  - reflexivity.
  - reflexivity.
  - vm_compute. reflexivity.
Defined.

(** Coalescing on the anchored request. *)
Lemma WriteRequest_payload_appended_witness :
  @WriteRequest vmessAddressSerializer Example.anchored Example.payload
  = Ok (requestWire Example.anchored Example.relayBytes ++ Example.payload)
  /\ length (requestWire Example.anchored Example.relayBytes)
     = @RequestLen vmessAddressSerializer Example.anchored.
Proof.
  apply (@WriteRequest_payload_appended vmessAddressSerializer Example.anchored
           Example.payload (requestWire Example.anchored Example.relayBytes)).
  - reflexivity.
  - apply vmess_WritesAnnouncedLen_ipv4. reflexivity.
  - vm_compute. reflexivity.
Defined.

(** A block that starts with tag 11. *)
Lemma ReadRequest_rejects_first_tag_witness :
  @ReadRequest vmessAddressSerializer
    ([Version] ++ repeat x00 16 ++ PutUvarint (len [x0b; x00])
     ++ [x0b; x00] ++ Example.payload)
  = Err (CantParseAddons (UnknownProtobufHeader x0b)).
Proof.
  apply (@ReadRequest_rejects_first_tag vmessAddressSerializer
           (repeat x00 16) [x00] Example.payload x0b).
  - reflexivity.
  - discriminate.
  - reflexivity.
Defined.

(** A block that holds the vision flow and nothing else. *)
Lemma readAddons_flow_only_witness :
  readAddons ([x0a] ++ PutUvarint (len (Flow Example.flowOnly))
              ++ Flow Example.flowOnly)
  = Ok {| AddonsFlow := Flow Example.flowOnly; VPPLDestination := None |}
  /\ readAddons [x0a] = Ok {| AddonsFlow := []; VPPLDestination := None |}.
Proof.
  apply (@readAddons_flow_only (Flow Example.flowOnly)). reflexivity.
Defined.

(** The vision flow followed by tag 26. *)
Lemma readAddons_rejects_second_tag_witness :
  readAddons ([x0a] ++ PutUvarint (len (Flow Example.flowOnly))
              ++ Flow Example.flowOnly ++ x1a :: [x00])
  = Err (UnknownProtobufHeader x1a).
Proof.
  apply (@readAddons_rejects_second_tag (Flow Example.flowOnly) [x00] x1a).
  - reflexivity.
  - discriminate.
Defined.

(** A complete block followed by two more bytes. *)
Lemma readAddons_ignores_trailing_witness :
  readAddons ([x0a] ++ PutUvarint (len (Flow Example.flowOnly))
              ++ Flow Example.flowOnly
              ++ [x12] ++ PutUvarint (len Example.sealedTarget)
              ++ Example.sealedTarget ++ [x1a; x00])
  = Ok {| AddonsFlow := Flow Example.flowOnly;
          VPPLDestination := Some Example.sealedTarget |}.
Proof.
  apply (@readAddons_ignores_trailing (Flow Example.flowOnly)
           Example.sealedTarget [x1a; x00]).
  - reflexivity.
  - reflexivity.
Defined.

(** The decoded flow-only request is well formed. *)
Lemma ReadRequest_decoded_wellformed_witness :
  length (UUID (decodedImage Example.flowOnly)) = 16%nat
  /\ (exists tail,
        requestWire Example.flowOnly Example.serverBytes ++ Example.payload
        = Version :: UUID (decodedImage Example.flowOnly) ++ tail)
  /\ (Command (decodedImage Example.flowOnly) = CommandMux ->
      Destination (decodedImage Example.flowOnly) = zeroSocksaddr).
Proof.
  apply (@ReadRequest_decoded_wellformed vmessAddressSerializer
           (requestWire Example.flowOnly Example.serverBytes ++ Example.payload)
           Example.payload (decodedImage Example.flowOnly)).
  vm_compute. reflexivity.
Defined.

(** The packet request of the anchored request, decoded. *)
Lemma ReadRequest_WritePacketRequest_witness :
  @ReadRequest vmessAddressSerializer
    ([Version] ++ UUID Example.anchored ++ [x00] ++ [CommandUDP]
     ++ Example.relayBytes
     ++ PutUint16 (uint16 (len Example.payload)) ++ Example.payload)
  = Ok ({| UUID := UUID Example.anchored; Command := CommandUDP;
           Destination := Destination Example.anchored;
           Flow := []; VPPLDestAddr := None |},
        PutUint16 (uint16 (len Example.payload)) ++ Example.payload).
Proof.
  apply (@ReadRequest_WritePacketRequest vmessAddressSerializer
           Example.anchored Example.payload).
  - reflexivity.
  - apply vmess_WritesAnnouncedLen_ipv4. reflexivity.
  - apply vmess_ReadsBackWritten_ipv4; [reflexivity|reflexivity|].
    vm_compute. split; [discriminate|reflexivity].
  - vm_compute. reflexivity.
Defined.

(** An addon length of [2^63]. *)
Lemma ReadRequest_huge_addons_length_panics_witness :
  @ReadRequest vmessAddressSerializer
    ([Version] ++ repeat x00 16 ++ PutUvarint (2 ^ 63) ++ Example.payload)
  = Panic.
Proof.
  apply (@ReadRequest_huge_addons_length_panics vmessAddressSerializer
           (repeat x00 16) Example.payload (2 ^ 63)).
  - reflexivity.
  - split; [vm_compute; discriminate|reflexivity].
Defined.

(** The adapter built from the ClientEncrypt options of the examples. *)
Lemma NewVLESS_adapter_invariants_witness :
  exists h,
    Outbound.NewVLESS Example.world "vless-out" (Example.optionsWith "MIIB" false)
    = Ok h
    /\ Outbound.packetAddr h && Outbound.xudp h = false
    /\ (Options.PacketEncoding (Example.optionsWith "MIIB" false) = None ->
        Outbound.xudp h = true)
    /\ (exists c, Outbound.client h = Some c)
    /\ Outbound.originDest h = None
    /\ Outbound.Enabled (Outbound.vppl h)
       = Options.Enabled (Options.Base (Options.VPPL (Example.optionsWith "MIIB" false)))
    /\ Outbound.Proxy (Outbound.vppl h)
       = Options.Enabled (Options.Base (Options.VPPL (Example.optionsWith "MIIB" false)))
         && Options.Proxy (Options.Base (Options.VPPL (Example.optionsWith "MIIB" false))).
Proof.
  eexists. split; [vm_compute; reflexivity|].
  apply (@NewVLESS_adapter_invariants Example.world "vless-out"
           (Example.optionsWith "MIIB" false)).
  vm_compute. reflexivity.
Defined.

(** The same adapter, as a ClientEncrypt adapter. *)
Lemma NewVLESS_ClientEncrypt_adapter_witness :
  exists h,
    Outbound.NewVLESS Example.world "vless-out" (Example.optionsWith "MIIB" false)
    = Ok h
    /\ Outbound.transport h = None
    /\ (exists k, Outbound.Key (Outbound.vppl h) = Some k)
    /\ Outbound.Address (Outbound.vppl h)
       = Outbound.ParseSocksaddrHostPort Example.world
           (Options.Host (Options.VPPL (Example.optionsWith "MIIB" false)))
           (uint16 (Options.Port (Options.VPPL (Example.optionsWith "MIIB" false))))
    /\ Outbound.serverAddr h
       = Outbound.ParseSocksaddrHostPort Example.world
           (Options.Server (Options.ServerOptions (Example.optionsWith "MIIB" false)))
           (Options.ServerPort (Options.ServerOptions (Example.optionsWith "MIIB" false)))
    /\ Outbound.originDest h = None.
Proof.
  eexists. split; [vm_compute; reflexivity|].
  apply (@NewVLESS_ClientEncrypt_adapter Example.world "vless-out"
           (Example.optionsWith "MIIB" false));
    vm_compute; reflexivity.
Defined.


(** Options that enable the extension, in proxy mode, and name a
    transport. *)
Lemma NewVLESS_rejects_transport_with_VPPL_witness :
  Outbound.NewVLESS Example.world "vless-out"
    (Example.optionsOf true None (Some (Options.transportOptions 0)))
  <> Ok Example.relayPassthrough
  /\ Outbound.NewVLESS Example.world "vless-out"
       (Example.optionsOf true None (Some (Options.transportOptions 0)))
     = Err VPPLNoTransport.
Proof.
  split.
  - apply (@NewVLESS_rejects_transport_with_VPPL Example.world "vless-out"
             (Example.optionsOf true None (Some (Options.transportOptions 0)))
             (Options.transportOptions 0)); reflexivity.
  - vm_compute. reflexivity.
Defined.

(** The relay of the examples, dialling with the blob of the upstream hop. *)
Lemma DialContext_RelayPassthrough_witness :
  let r := Outbound.DialContext Example.world (Some Example.relayed) "tcp"
             Example.target (Outbound.start Example.relayPassthrough) in
  r = Outbound.vlessDialer_DialContext Example.world "tcp" Example.target
        {| Outbound.adapter :=
             Outbound.setOriginDest (Outbound.VPPLdestination Example.relayed)
               Example.relayPassthrough;
           Outbound.trace := [] |}
  /\ Outbound.physicalTargets (Outbound.trace (snd r)) = [Example.target]
  /\ (forall conn d od,
        In (Outbound.EvDialEarlyConn conn d od) (Outbound.trace (snd r))
        \/ In (Outbound.EvDialEarlyXUDPPacketConn conn d od) (Outbound.trace (snd r)) ->
        d = Example.target /\ od = Outbound.VPPLdestination Example.relayed).
Proof.
  apply (@DialContext_RelayPassthrough Example.world Example.relayed "tcp"
           Example.target Example.relayPassthrough); try reflexivity.
  vm_compute. discriminate.
Defined.

(** The ClientEncrypt adapter in the world whose encryption fails. *)
Lemma DialContext_encrypt_failure_witness :
  let r := Outbound.DialContext Example.worldEncryptFails None "tcp"
             Example.target (Outbound.start Example.clientEncrypt) in
  fst r = Err (External 7)
  /\ Outbound.networkIO (Outbound.trace (snd r)) = []
  /\ Outbound.originDest (Outbound.adapter (snd r))
     = Some (Outbound.Socksaddr_String Example.worldEncryptFails Example.target).
Proof.
  apply (@DialContext_encrypt_failure Example.worldEncryptFails None "tcp"
           Example.target Example.clientEncrypt (Outbound.rsaPublicKey 0)
           (External 7)); reflexivity.
Defined.

(** The multiplexed ClientEncrypt adapter: the dial goes to the multiplex
    client, for the relay address. *)
Lemma DialContext_multiplexed_witness :
  let r := Outbound.DialContext Example.world None "tcp" Example.target
             (Outbound.start Example.multiplexed) in
  Outbound.physicalTargets (Outbound.trace (snd r)) = []
  /\ Outbound.negotiations (Outbound.trace (snd r)) = []
  /\ Outbound.trace (snd r)
     = [Outbound.EvEncrypt (Outbound.Socksaddr_String Example.world Example.target);
        Outbound.EvMuxDialContext "tcp" Example.relay].
Proof.
  cbv zeta.
  destruct (@DialContext_multiplexed Example.world None "tcp" Example.target
              Example.multiplexed (Outbound.muxHandle 0) eq_refl)
    as [Hp [Hn [_ Hc]]].
  split; [exact Hp|]. split; [exact Hn|].
  rewrite (Hc (Outbound.rsaPublicKey 0) Example.sealedTarget
              eq_refl eq_refl eq_refl eq_refl).
  reflexivity.
Defined.

(** [ListenPacket] on the ClientEncrypt adapter: the handshake declares
    the target itself. *)
Lemma ListenPacket_never_resolves_witness :
  Outbound.negotiations
    (Outbound.trace
       (snd (Outbound.ListenPacket Example.world Example.target
               (Outbound.start Example.clientEncrypt))))
  = [(Example.target, Some (Outbound.originDest Example.clientEncrypt))].
Proof.
  apply (proj2 (proj2 (proj2
           (@ListenPacket_never_resolves Example.world Example.target
              Example.clientEncrypt)))
           (Outbound.connHandle 1) (Outbound.clientHandle 0));
    reflexivity.
Defined.

(** A dial over the network "sctp". *)
Lemma vlessDialer_unknown_network_witness :
  let a := Outbound.acquireStream Example.world Example.target
             (Outbound.start Example.clientEncrypt) in
  let r := Outbound.vlessDialer_DialContext Example.world "sctp" Example.target
             (Outbound.start Example.clientEncrypt) in
  fst r = match fst a with
          | Ok _ => Err (ErrUnknownNetwork "sctp")
          | Err e => Err e
          | Panic => Panic
          end
  /\ snd r = snd a.
Proof.
  apply (@vlessDialer_unknown_network Example.world "sctp" Example.target
           Example.clientEncrypt); vm_compute; discriminate.
Defined.

(** The adapter over a transport. *)
Lemma vlessDialer_transport_only_witness :
  let r := Outbound.vlessDialer_DialContext Example.world "udp" Example.server
             (Outbound.start Example.overTransport) in
  let l := Outbound.vlessDialer_ListenPacket Example.world Example.server
             (Outbound.start Example.overTransport) in
  Outbound.physicalTargets (Outbound.trace (snd r)) = []
  /\ Outbound.physicalTargets (Outbound.trace (snd l)) = []
  /\ (forall c, ~ In (Outbound.EvTLSHandshake c) (Outbound.trace (snd r)))
  /\ (forall c, ~ In (Outbound.EvTLSHandshake c) (Outbound.trace (snd l)))
  /\ hd_error (Outbound.trace (snd r)) = Some Outbound.EvTransportDial
  /\ hd_error (Outbound.trace (snd l)) = Some Outbound.EvTransportDial.
Proof.
  apply (@vlessDialer_transport_only Example.world "udp" Example.server
           Example.overTransport (Outbound.transportHandle 0)).
  reflexivity.
Defined.

(** The XUDP adapter: a udp dial is a [ListenPacket]. *)
Lemma vlessDialer_udp_is_ListenPacket_witness :
  Outbound.vlessDialer_DialContext Example.world "udp" Example.target
    (Outbound.start Example.clientEncrypt)
  = Outbound.vlessDialer_ListenPacket Example.world Example.target
      (Outbound.start Example.clientEncrypt).
Proof.
  apply (@vlessDialer_udp_is_ListenPacket Example.world "udp" Example.target
           Example.clientEncrypt).
  - reflexivity.
  - left. reflexivity.
  - intros e. vm_compute. discriminate.
Defined.

(** The packetaddr adapter dialling the numeric server address. *)
Lemma vlessDialer_packetaddr_numeric_witness :
  let r := Outbound.vlessDialer_DialContext Example.world "udp" Example.server
             (Outbound.start Example.packetaddr) in
  Outbound.negotiations (Outbound.trace (snd r))
  = [(Outbound.SeqPacketMagicAddress, None)]
  /\ fst r
     = match Outbound.client_DialEarlyPacketConn Example.world
               (Outbound.clientHandle 0) (Outbound.connHandle 1)
               Outbound.SeqPacketMagicAddress with
       | Ok packetConn =>
           Ok (Outbound.BindPacketConn
                 (Outbound.PacketAddrConn packetConn Example.server)
                 Example.server)
       | Err e => Err e
       | Panic => Panic
       end.
Proof.
  apply (@vlessDialer_packetaddr_numeric Example.world "udp" Example.server
           Example.packetaddr (Outbound.clientHandle 0) (Outbound.connHandle 1));
    reflexivity.
Defined.
